(** * A BDI agent over an external reasoning service

    Shallow embedding of [bdi_agent_framework.py]: the three state records,
    the [BDIAgent] class with its belief map, desire list and intention
    list, the reasoning cycle and the intention executor, followed by the
    properties proved about them.

    Conventions of the embedding.
    - Python values that reach the agent (arguments, parsed JSON) are the
      inductive type [pyval], the data JSON can carry; a [float] is an IEEE
      binary64 number, the kernel's primitive float.  Objects that
      [json.dumps] cannot serialise are outside the model.
    - A method of the agent is a computation in the monad [M]: it takes the
      world (the agent object, what was printed, and what an overridden
      action may touch) and returns the new world with either a value or
      the exception that was raised.  A raised exception keeps every
      mutation made before it, as in Python.
    - Library calls that are not code of the agent are the fields of the
      class [Runtime]: the reasoning service, [json.loads], [json.dumps],
      [float(str)], [repr], [str(exception)].  The clock is an argument:
      [execute_intentions] takes the value [time.time()] returns.
    - Only exceptions derived from [Exception] are modelled;
      [KeyboardInterrupt] and [SystemExit] are not errors and are outside
      the model, but for the one place where the code handles an interrupt:
      the loop of the interactive shell, where it is an event of [input].
    - Object identity is not modelled.  Where CPython tests identity before
      equality ([list.remove]) identity is approximated by structural
      equality of the values.  A dictionary finds a NaN key again only when
      it is given the same object; the properties of the belief map are
      stated for keys other than NaN. *)

From Stdlib Require Import ZArith List String Ascii Bool Lia Floats.
From Stdlib Require Import DecimalString.
Import ListNotations.
Local Open Scope string_scope.
Local Open Scope list_scope.
Set Warnings "-register-all".

(** ** Python values *)

Inductive pyval : Type :=
| PNone
| PBool (b : bool)
| PInt (z : Z)
| PFloat (f : float)
| PStr (s : string)
| PList (l : list pyval)
| PDict (d : list (pyval * pyval)).

(** Exceptions, by class.  The message text is not modelled.
    [OtherException cls] is an exception of any other class [cls], one
    that derives from none of the classes above. *)
Inductive exn : Type :=
| JSONDecodeError
| KeyError (k : pyval)
| TypeError
| AttributeError
| ValueError
| OtherException (cls : string).

Inductive Result (A : Type) : Type :=
| Ok (a : A)
| Raise (e : exn).
Arguments Ok {A} a.
Arguments Raise {A} e.

(** [isinstance(e, json.JSONDecodeError)] *)
Definition is_JSONDecodeError (e : exn) : bool :=
  match e with JSONDecodeError => true | _ => false end.

(** [isinstance(e, (ValueError, TypeError))]; [JSONDecodeError] derives
    from [ValueError]. *)
Definition is_ValueError_or_TypeError (e : exn) : bool :=
  match e with
  | ValueError | TypeError | JSONDecodeError => true
  | _ => false
  end.

(** *** Numbers *)

(** The exact value of a finite float is [m * 2^e]; Python compares a float
    with an int exactly, without rounding the int. *)
Definition float_gt_Z (x : float) (z : Z) : bool :=
  match Prim2SF x with
  | S754_zero _ => (z <? 0)%Z
  | S754_infinity s => negb s
  | S754_nan => false
  | S754_finite s m e =>
      let mz := if s then Z.neg m else Z.pos m in
      if (0 <=? e)%Z then (z <? mz * 2 ^ e)%Z
      else (z * 2 ^ (- e) <? mz)%Z
  end.

Definition float_eq_Z (x : float) (z : Z) : bool :=
  match Prim2SF x with
  | S754_zero _ => (z =? 0)%Z
  | S754_infinity _ => false
  | S754_nan => false
  | S754_finite s m e =>
      let mz := if s then Z.neg m else Z.pos m in
      if (0 <=? e)%Z then (z =? mz * 2 ^ e)%Z
      else (z * 2 ^ (- e) =? mz)%Z
  end.

Definition Z_of_bool (b : bool) : Z := if b then 1%Z else 0%Z.

(** *** Truth value: [bool(v)] *)
Definition truthy (v : pyval) : bool :=
  match v with
  | PNone => false
  | PBool b => b
  | PInt z => negb (z =? 0)%Z
  | PFloat f => negb (PrimFloat.eqb f 0%float)
  | PStr s => negb (String.eqb s EmptyString)
  | PList l => match l with [] => false | _ => true end
  | PDict d => match d with [] => false | _ => true end
  end.

(** *** Hashing: what may be a dictionary key *)
Definition hashable (v : pyval) : bool :=
  match v with
  | PList _ | PDict _ => false
  | _ => true
  end.

(** *** Equality [a == b] *)

(** Equality of keys, the comparison a dictionary lookup makes: numbers
    compare by value across [bool], [int] and [float].  NaN equals
    nothing, itself included. *)
Definition key_eq (a b : pyval) : bool :=
  match a, b with
  | PNone, PNone => true
  | PBool x, PBool y => Bool.eqb x y
  | PBool x, PInt y => (Z_of_bool x =? y)%Z
  | PInt x, PBool y => (x =? Z_of_bool y)%Z
  | PInt x, PInt y => (x =? y)%Z
  | PBool x, PFloat y => float_eq_Z y (Z_of_bool x)
  | PFloat x, PBool y => float_eq_Z x (Z_of_bool y)
  | PInt x, PFloat y => float_eq_Z y x
  | PFloat x, PInt y => float_eq_Z x y
  | PFloat x, PFloat y => PrimFloat.eqb x y
  | PStr x, PStr y => String.eqb x y
  | _, _ => false
  end.

(** ** Dictionaries: insertion-ordered, one entry per key *)

Fixpoint keys_wf (ks : list pyval) : Prop :=
  match ks with
  | [] => True
  | k :: r => Forall (fun k' => key_eq k k' = false) r /\ keys_wf r
  end.

Section Dict.
Context {V : Type}.

(** [d.get(k)] as an option *)
Fixpoint dict_lookup (d : list (pyval * V)) (k : pyval) : option V :=
  match d with
  | [] => None
  | (k', v) :: r => if key_eq k' k then Some v else dict_lookup r k
  end.

(** [d[k] = v]: the value is replaced in place when the key is present
    (the stored key object stays), the entry is appended otherwise. *)
Fixpoint dict_setitem (d : list (pyval * V)) (k : pyval) (v : V)
  : list (pyval * V) :=
  match d with
  | [] => [(k, v)]
  | (k', v') :: r =>
      if key_eq k' k then (k', v) :: r
      else (k', v') :: dict_setitem r k v
  end.

(** [list(d.keys())] *)
Definition dict_keys (d : list (pyval * V)) : list pyval := map fst d.

(** How many entries answer to the key [k]. *)
Definition dict_count (d : list (pyval * V)) (k : pyval) : nat :=
  List.length (filter (fun kv => key_eq (fst kv) k) d).

(** No key occurs twice, the invariant of a Python [dict]: a stored key
    does not answer to a key stored after it. *)
Definition dict_wf (d : list (pyval * V)) : Prop := keys_wf (dict_keys d).
End Dict.

(** *** Equality of arbitrary values *)

(** Structural equality of values, standing for [a is b]. *)
Fixpoint py_is (a b : pyval) {struct a} : bool :=
  match a, b with
  | PNone, PNone => true
  | PBool x, PBool y => Bool.eqb x y
  | PInt x, PInt y => (x =? y)%Z
  | PFloat x, PFloat y => PrimFloat.Leibniz.eqb x y
  | PStr x, PStr y => String.eqb x y
  | PList la, PList lb =>
      (fix seq_is (xs ys : list pyval) {struct xs} : bool :=
         match xs, ys with
         | [], [] => true
         | x :: xs', y :: ys' => py_is x y && seq_is xs' ys'
         | _, _ => false
         end) la lb
  | PDict da, PDict db =>
      (fix items_is (xs ys : list (pyval * pyval)) {struct xs} : bool :=
         match xs, ys with
         | [], [] => true
         | (k, v) :: xs', (k', v') :: ys' =>
             py_is k k' && py_is v v' && items_is xs' ys'
         | _, _ => false
         end) da db
  | _, _ => false
  end.

(** [a == b] on values: sequences compare item by item, dictionaries as
    sets of entries whatever their order; items compare as CPython
    compares them, by [x is y or x == y]. *)
Fixpoint py_eq (a b : pyval) {struct a} : bool :=
  match a, b with
  | PList la, PList lb =>
      (fix seq_eq (xs ys : list pyval) {struct xs} : bool :=
         match xs, ys with
         | [], [] => true
         | x :: xs', y :: ys' => (py_is x y || py_eq x y) && seq_eq xs' ys'
         | _, _ => false
         end) la lb
  | PDict da, PDict db =>
      Nat.eqb (List.length da) (List.length db) &&
      (fix items_eq (xs : list (pyval * pyval)) {struct xs} : bool :=
         match xs with
         | [] => true
         | (k, v) :: xs' =>
             match dict_lookup db k with
             | Some v' => py_is v v' || py_eq v v'
             | None => false
             end && items_eq xs'
         end) da
  | PList _, _ | PDict _, _ | _, PList _ | _, PDict _ => false
  | _, _ => key_eq a b
  end.

(** [PyObject_RichCompareBool(a, b, Py_EQ)]: [a is b or a == b] *)
Definition py_same (a b : pyval) : bool := py_is a b || py_eq a b.

(** ** The state records *)

Record Belief : Type := mkBelief
  { key : pyval; value : pyval; confidence : pyval }.

Record Desire : Type := mkDesire
  { goal : pyval; priority : pyval; context : pyval }.

Record Intention : Type := mkIntention
  { action : pyval; parameters : pyval; deadline : pyval }.

Definition DEFAULT_CONFIDENCE : pyval := PFloat 1%float.
Definition DEFAULT_PRIORITY : pyval := PInt 1.

(** The generated [__eq__] of the dataclass compares the tuples of the
    fields, item by item. *)
Definition Intention_eq (x y : Intention) : bool :=
  py_same (action x) (action y) &&
  py_same (parameters x) (parameters y) &&
  py_same (deadline x) (deadline y).

(** [x is y], by the fields. *)
Definition Intention_is (x y : Intention) : bool :=
  py_is (action x) (action y) &&
  py_is (parameters x) (parameters y) &&
  py_is (deadline x) (deadline y).

(** [l.remove(x)]: drops the first item [y] with [y is x or y == x];
    [None] stands for the [ValueError] of a missing item. *)
Fixpoint list_remove (x : Intention) (l : list Intention)
  : option (list Intention) :=
  match l with
  | [] => None
  | y :: r =>
      if Intention_is y x || Intention_eq y x then Some r
      else match list_remove x r with
           | Some r' => Some (y :: r')
           | None => None
           end
  end.

(** ** The agent and the world around it *)

Record BDIAgent : Type := mkAgent
  { name : string;
    system_prompt : string;
    beliefs : list (pyval * Belief);
    desires : list Desire;
    intentions : list Intention }.

(** [BDIAgent.__init__] *)
Definition BDIAgent_init (name0 system_prompt0 : string) : BDIAgent :=
  {| name := name0;
     system_prompt :=
       if negb (String.eqb system_prompt0 EmptyString) then system_prompt0
       else "You are " ++ name0 ++
            ", a BDI agent. Reason about beliefs, desires, and intentions.";
     beliefs := [];
     desires := [];
     intentions := [] |}.

(** The world a method runs in: the agent object, the lines printed so
    far, and the part of the environment an action may touch. *)
Record World (Ext : Type) : Type := mkWorld
  { self : BDIAgent;
    stdout : list string;
    env : Ext }.
Arguments mkWorld {Ext} _ _ _.
Arguments self {Ext} _.
Arguments stdout {Ext} _.
Arguments env {Ext} _.

(** ** The monad of methods: state and exceptions *)

Definition M (Ext A : Type) : Type := World Ext -> Result A * World Ext.

Section Monad.
Context {Ext : Type}.

Definition ret {A} (a : A) : M Ext A := fun w => (Ok a, w).

Definition raise {A} (e : exn) : M Ext A := fun w => (Raise e, w).

Definition bind {A B} (m : M Ext A) (k : A -> M Ext B) : M Ext B :=
  fun w =>
    match m w with
    | (Ok a, w') => k a w'
    | (Raise e, w') => (Raise e, w')
    end.

(** A builtin that returns or raises without touching the world. *)
Definition lift {A} (r : Result A) : M Ext A := fun w => (r, w).

(** [try: m  except Exception as e: h e] *)
Definition try_except {A} (m : M Ext A) (h : exn -> M Ext A) : M Ext A :=
  fun w =>
    match m w with
    | (Ok a, w') => (Ok a, w')
    | (Raise e, w') => h e w'
    end.

Definition get_self : M Ext BDIAgent := fun w => (Ok (self w), w).

Definition set_beliefs (b : list (pyval * Belief)) : M Ext unit :=
  fun w =>
    let a := self w in
    (Ok tt,
     mkWorld (mkAgent (name a) (system_prompt a) b (desires a) (intentions a))
             (stdout w) (env w)).

Definition set_desires (d : list Desire) : M Ext unit :=
  fun w =>
    let a := self w in
    (Ok tt,
     mkWorld (mkAgent (name a) (system_prompt a) (beliefs a) d (intentions a))
             (stdout w) (env w)).

Definition set_intentions (i : list Intention) : M Ext unit :=
  fun w =>
    let a := self w in
    (Ok tt,
     mkWorld (mkAgent (name a) (system_prompt a) (beliefs a) (desires a) i)
             (stdout w) (env w)).

(** [print(line)] *)
Definition print (line : string) : M Ext unit :=
  fun w => (Ok tt, mkWorld (self w) (stdout w ++ [line]) (env w)).

(** A call that works on the environment only. *)
Definition on_env {A} (f : Ext -> Result A * Ext) : M Ext A :=
  fun w =>
    let (r, x) := f (env w) in (r, mkWorld (self w) (stdout w) x).
End Monad.

Declare Scope py_scope.
Delimit Scope py_scope with py.
Notation "x <- m ;; k" := (bind m (fun x => k))
  (at level 61, m at next level, right associativity) : py_scope.
Notation "m ;; k" := (bind m (fun _ => k))
  (at level 61, right associativity) : py_scope.
Local Open Scope py_scope.

(** ** Operations of the language on values *)

Definition dq : string := String (ascii_of_nat 34) EmptyString.
Definition nl : string := String (ascii_of_nat 10) EmptyString.

(** [v[k]] for a string [k] *)
Definition getitem (v : pyval) (k : string) : Result pyval :=
  match v with
  | PDict d =>
      match dict_lookup d (PStr k) with
      | Some x => Ok x
      | None => Raise (KeyError (PStr k))
      end
  | _ => Raise TypeError
  end.

(** [v.get(k, default)] *)
Definition py_get (v : pyval) (k : string) (default : pyval) : Result pyval :=
  match v with
  | PDict d =>
      match dict_lookup d (PStr k) with
      | Some x => Ok x
      | None => Ok default
      end
  | _ => Raise AttributeError
  end.

(** The one-character strings of a string. *)
Fixpoint chars (s : string) : list pyval :=
  match s with
  | EmptyString => []
  | String c r => PStr (String c EmptyString) :: chars r
  end.

(** The items a [for] statement walks through. *)
Definition py_iter (v : pyval) : Result (list pyval) :=
  match v with
  | PList l => Ok l
  | PDict d => Ok (dict_keys d)
  | PStr s => Ok (chars s)
  | _ => Raise TypeError
  end.

(** [a or b] *)
Definition py_or (a b : pyval) : pyval := if truthy a then a else b.

(** [dataclasses.asdict] *)
Definition asdict_Belief (b : Belief) : pyval :=
  PDict [(PStr "key", key b); (PStr "value", value b);
         (PStr "confidence", confidence b)].

Definition asdict_Desire (d : Desire) : pyval :=
  PDict [(PStr "goal", goal d); (PStr "priority", priority d);
         (PStr "context", context d)].

Definition asdict_Intention (i : Intention) : pyval :=
  PDict [(PStr "action", action i); (PStr "parameters", parameters i);
         (PStr "deadline", deadline i)].

(** ** The agent *)

(** The library calls the agent makes, which are not code of the agent:
    - [llm prompt] is
      [self.llm.chat.completions.create(...).choices[0].message.content]:
      the reply text, [None] for a reply without text, or the error of the
      call;
    - [json_loads] and [json_dumps] are [json.loads] and
      [json.dumps(_, indent=2)];
    - [float_of_str] is [float] on a string, [None] for its [ValueError];
    - [py_repr] is [repr] and [exn_str] is [str] of an exception. *)
Class Runtime : Type := mkRuntime
  { llm : string -> Result (option string);
    json_loads : string -> Result pyval;
    json_dumps : pyval -> string;
    float_of_str : string -> option float;
    py_repr : pyval -> string;
    exn_str : exn -> string }.

Section Agent.
(** [Ext] is what an overridden [execute_action] may read and write. *)
Context {Ext : Type} {RT : Runtime}.

(** [json.loads(content)]: what is not text is a [TypeError]. *)
Definition loads (content : option string) : Result pyval :=
  match content with
  | Some s => json_loads s
  | None => Raise TypeError
  end.

(** [str(v)], what an f-string puts for [{v}]. *)
Definition py_str (v : pyval) : string :=
  match v with
  | PStr s => s
  | _ => py_repr v
  end.

(** *** Agent State Container *)

Definition add_belief (key0 value0 confidence0 : pyval) : M Ext unit :=
  a <- get_self ;;
  if hashable key0 then
    set_beliefs
      (dict_setitem (beliefs a) key0 (mkBelief key0 value0 confidence0))
  else raise TypeError.

Definition add_desire (goal0 priority0 context0 : pyval) : M Ext unit :=
  a <- get_self ;;
  set_desires
    (desires a ++ [mkDesire goal0 priority0 (py_or context0 (PDict []))]).

Definition get_context (a : BDIAgent) : string :=
  let beliefs_str :=
    json_dumps
      (PDict (map (fun kv => (fst kv, asdict_Belief (snd kv))) (beliefs a)))
  in
  let desires_str := json_dumps (PList (map asdict_Desire (desires a))) in
  let intentions_str :=
    json_dumps (PList (map asdict_Intention (intentions a))) in
  nl ++ "Current State:" ++ nl ++
  "BELIEFS: " ++ beliefs_str ++ nl ++
  "DESIRES: " ++ desires_str ++ nl ++
  "CURRENT INTENTIONS: " ++ intentions_str ++ nl ++
  "        ".

(** *** Prompt Builder *)

Definition _build_reasoning_prompt (a : BDIAgent) (perception : string)
  : string :=
  (system_prompt a ++ nl ++
   nl ++
   get_context a ++ nl ++
   nl ++
   "NEW PERCEPTION: " ++ perception ++ nl ++
   nl ++
   "Based on your current beliefs, desires, and any new perception, decide what intentions/actions to take." ++ nl ++
   "Consider:" ++ nl ++
   "1. Which desires are most important given current beliefs?" ++ nl ++
   "2. What actions would help achieve these desires?" ++ nl ++
   "3. Should any current intentions be modified or cancelled?" ++ nl ++
   nl ++
   "Respond with a JSON object containing:" ++ nl ++
   "- " ++ dq ++ "belief_updates" ++ dq ++ ": [{" ++
     dq ++ "key" ++ dq ++ ": " ++ dq ++ "string" ++ dq ++ ", " ++
     dq ++ "value" ++ dq ++ ": " ++ dq ++ "any" ++ dq ++ ", " ++
     dq ++ "confidence" ++ dq ++ ": 0.0-1.0}]" ++ nl ++
   "- " ++ dq ++ "new_intentions" ++ dq ++ ": [{" ++
     dq ++ "action" ++ dq ++ ": " ++ dq ++ "string" ++ dq ++ ", " ++
     dq ++ "parameters" ++ dq ++ ": {}, " ++
     dq ++ "deadline" ++ dq ++ ": timestamp_or_null}]" ++ nl ++
   "- " ++ dq ++ "reasoning" ++ dq ++ ": " ++
     dq ++ "explanation of your decision process" ++ dq ++ nl ++
   nl ++
   "Only include belief updates if perceptions change your understanding."
   ++ nl)%string.

(** *** Reasoning Cycle *)

(** The body of the [for] loop of [_update_beliefs]. *)
Definition update_belief (belief_update : pyval) : M Ext unit :=
  k <- lift (getitem belief_update "key") ;;
  v <- lift (getitem belief_update "value") ;;
  c <- lift (py_get belief_update "confidence" DEFAULT_CONFIDENCE) ;;
  add_belief k v c.

Fixpoint for_each (items : list pyval) (body : pyval -> M Ext unit)
  : M Ext unit :=
  match items with
  | [] => ret tt
  | x :: rest => body x ;; for_each rest body
  end.

Definition _update_beliefs (belief_updates : pyval) : M Ext unit :=
  items <- lift (py_iter belief_updates) ;;
  for_each items update_belief.

(** The [for] loop of [_create_intentions], over the local list
    [intentions]. *)
Fixpoint create_intentions_loop
  (items : list pyval) (acc : list Intention) : M Ext (list Intention) :=
  match items with
  | [] => ret acc
  | intention_data :: rest =>
      a <- lift (getitem intention_data "action") ;;
      p <- lift (py_get intention_data "parameters" (PDict [])) ;;
      d <- lift (py_get intention_data "deadline" PNone) ;;
      create_intentions_loop rest (acc ++ [mkIntention a p d])
  end.

Definition _create_intentions (intention_data_list : pyval)
  : M Ext (list Intention) :=
  items <- lift (py_iter intention_data_list) ;;
  create_intentions_loop items [].

Definition _log_reasoning (reasoning : pyval) : M Ext unit :=
  a <- get_self ;;
  print ("[" ++ name a ++ "] Reasoning: " ++ py_str reasoning).

(** What [reason] hands back: the very list object it has just stored in
    [self.intentions], or a new list. *)
Inductive list_ref : Type :=
| StoredIntentions
| NewList (l : list Intention).

Definition deref (r : list_ref) (a : BDIAgent) : list Intention :=
  match r with
  | StoredIntentions => intentions a
  | NewList l => l
  end.

(** The [try] block of [reason]. *)
Definition reason_try (prompt : string) : M Ext list_ref :=
  content <- lift (llm prompt) ;;
  result <- lift (loads content) ;;
  belief_updates <- lift (py_get result "belief_updates" (PList [])) ;;
  _update_beliefs belief_updates ;;
  data <- lift (py_get result "new_intentions" (PList [])) ;;
  new_intentions <- _create_intentions data ;;
  set_intentions new_intentions ;;
  reasoning <-
    lift (py_get result "reasoning" (PStr "No explanation provided")) ;;
  _log_reasoning reasoning ;;
  ret StoredIntentions.

(** The two [except] clauses of [reason]. *)
Definition reason_except (e : exn) : M Ext list_ref :=
  a <- get_self ;;
  if is_JSONDecodeError e then
    print ("[" ++ name a ++ "] Error parsing LLM response: " ++ exn_str e) ;;
    ret (NewList [])
  else
    print ("[" ++ name a ++ "] Error in reasoning: " ++ exn_str e) ;;
    ret (NewList []).

Definition reason (perception : string) : M Ext list_ref :=
  a <- get_self ;;
  let prompt := _build_reasoning_prompt a perception in
  try_except (reason_try prompt) reason_except.

(** *** Intention Executor *)

(** [float(d) if isinstance(d, str) else d] *)
Definition coerce_deadline (d : pyval) : Result pyval :=
  match d with
  | PStr s =>
      match float_of_str s with
      | Some f => Ok (PFloat f)
      | None => Raise ValueError
      end
  | _ => Ok d
  end.

(** [current_time > d] for the float [current_time] *)
Definition float_gt (current_time : float) (d : pyval) : Result bool :=
  match d with
  | PFloat f => Ok (PrimFloat.ltb f current_time)
  | PInt z => Ok (float_gt_Z current_time z)
  | PBool b => Ok (float_gt_Z current_time (Z_of_bool b))
  | _ => Raise TypeError
  end.

(** [self.intentions.remove(intention)] *)
Definition remove_intention (intention : Intention) : M Ext unit :=
  a <- get_self ;;
  match list_remove intention (intentions a) with
  | Some l => set_intentions l
  | None => raise ValueError
  end.

(** The default [execute_action]. *)
Definition execute_action_default (action0 parameters0 : pyval) (x : Ext)
  : Result pyval * Ext :=
  (Ok (PStr ("Action '" ++ py_str action0 ++ "' with params " ++
             py_str parameters0 ++ " completed")), x).

Section Executor.
(** [self.execute_action], the default or an override in a subclass.
    An override works on [Ext]; it does not touch the three
    collections of the agent. *)
Variable execute_action : pyval -> pyval -> Ext -> Result pyval * Ext.

(** The [try] block of the deadline check: [Some results'] when it ends
    in [continue], [None] when control falls out of the [if]. *)
Definition check_expired
  (current_time : float) (intention : Intention) (results : list string)
  : M Ext (option (list string)) :=
  try_except
    (d <- lift (coerce_deadline (deadline intention)) ;;
     gt <- lift (float_gt current_time d) ;;
     if gt : bool then
       remove_intention intention ;;
       ret (Some (results ++
                  [("EXPIRED: " ++ py_str (action intention))%string]))
     else ret None)
    (fun e =>
       if is_ValueError_or_TypeError e then ret None else raise e).

(** The [for] loop of [execute_intentions] over the copy
    [self.intentions[:]], with the local list [results]. *)
Fixpoint execute_loop
  (current_time : float) (snapshot : list Intention)
  (results : list string) : M Ext (list string) :=
  match snapshot with
  | [] => ret results
  | intention :: rest =>
      expired <-
        (if truthy (deadline intention)
         then check_expired current_time intention results
         else ret None) ;;
      match expired with
      | Some results' => execute_loop current_time rest results'
      | None =>
          result <-
            on_env (execute_action (action intention)
                                   (parameters intention)) ;;
          let results' :=
            results ++ [("EXECUTED: " ++ py_str (action intention) ++
                         " -> " ++ py_str result)%string] in
          remove_intention intention ;;
          execute_loop current_time rest results'
      end
  end.

(** [current_time] is the value [time.time()] returns in this call. *)
Definition execute_intentions (current_time : float)
  : M Ext (list string) :=
  a <- get_self ;;
  execute_loop current_time (intentions a) [].

(** *** Cycle Orchestrator *)

Record CycleResult : Type := mkCycleResult
  { intentions_formed : nat;
    actions_executed : list string;
    current_beliefs : list pyval;
    active_desires : nat }.

Definition cycle (perception : string) (current_time : float)
  : M Ext CycleResult :=
  formed <- reason perception ;;
  execution_results <- execute_intentions current_time ;;
  a <- get_self ;;
  ret {| intentions_formed := List.length (deref formed a);
         actions_executed := execution_results;
         current_beliefs := dict_keys (beliefs a);
         active_desires := List.length (desires a) |}.
End Executor.

(** *** An action that is a method

    [execute_action] is a method of the agent, and an override in a
    subclass has the whole agent at hand: it can print, and it can read
    and change the beliefs, the desires and the intentions.  The executor
    and the cycle for such an action are the same code, the action run as
    a computation on the world.  [cycle_with] reads the list [reason]
    returned from [self.intentions], so an action that assigns a new list
    object to [self.intentions] is outside it. *)
Section Method.
Variable act : pyval -> pyval -> M Ext pyval.

Fixpoint execute_loop_with
  (current_time : float) (snapshot : list Intention)
  (results : list string) : M Ext (list string) :=
  match snapshot with
  | [] => ret results
  | intention :: rest =>
      expired <-
        (if truthy (deadline intention)
         then check_expired current_time intention results
         else ret None) ;;
      match expired with
      | Some results' => execute_loop_with current_time rest results'
      | None =>
          result <- act (action intention) (parameters intention) ;;
          let results' :=
            results ++ [("EXECUTED: " ++ py_str (action intention) ++
                         " -> " ++ py_str result)%string] in
          remove_intention intention ;;
          execute_loop_with current_time rest results'
      end
  end.

Definition execute_intentions_with (current_time : float)
  : M Ext (list string) :=
  a <- get_self ;;
  execute_loop_with current_time (intentions a) [].

Definition cycle_with (perception : string) (current_time : float)
  : M Ext CycleResult :=
  formed <- reason perception ;;
  execution_results <- execute_intentions_with current_time ;;
  a <- get_self ;;
  ret {| intentions_formed := List.length (deref formed a);
         actions_executed := execution_results;
         current_beliefs := dict_keys (beliefs a);
         active_desires := List.length (desires a) |}.
End Method.
End Agent.

(** ** The behaviour the design document describes *)

Section Specification.
Context {Ext : Type} {RT : Runtime}.

(** The deadline [d], coerced to a number, is strictly before
    [current_time]; a deadline that cannot be coerced has not passed. *)
Definition deadline_passed (current_time : float) (d : pyval) : bool :=
  match coerce_deadline d with
  | Ok t =>
      match float_gt current_time t with
      | Ok b => b
      | Raise _ => false
      end
  | Raise _ => false
  end.

(** An intention is expired when it has a deadline, which the executor
    tests by truth value, and that deadline has passed. *)
Definition expired (current_time : float) (i : Intention) : bool :=
  truthy (deadline i) && deadline_passed current_time (deadline i).

(** The world [w] with [l] as the intention list and [x] as the
    environment. *)
Definition world_after (w : World Ext) (l : list Intention) (x : Ext)
  : World Ext :=
  mkWorld
    (mkAgent (name (self w)) (system_prompt (self w)) (beliefs (self w))
             (desires (self w)) l)
    (stdout w) x.

(** The Intention Executor of the design document, on the list of
    intentions and the environment of the actions: for each intention in
    list order, an expired one is recorded as expired and its action is not
    invoked; any other has its action invoked and its result recorded; the
    intention is removed either way.  An exception of the action ends the
    walk with the intentions not yet consumed still in the list. *)
Fixpoint executor_spec
  (execute_action : pyval -> pyval -> Ext -> Result pyval * Ext)
  (current_time : float) (l : list Intention) (results : list string)
  (x : Ext) : Result (list string) * (list Intention * Ext) :=
  match l with
  | [] => (Ok results, ([], x))
  | i :: rest =>
      if expired current_time i then
        executor_spec execute_action current_time rest
          (results ++ [("EXPIRED: " ++ py_str (action i))%string]) x
      else
        match execute_action (action i) (parameters i) x with
        | (Ok r, x') =>
            executor_spec execute_action current_time rest
              (results ++ [("EXECUTED: " ++ py_str (action i) ++
                            " -> " ++ py_str r)%string]) x'
        | (Raise e, x') => (Raise e, (i :: rest, x'))
        end
  end.

(** The result lines of a walk in which no action raises, from the
    environment [x] to the environment [x']: one line for each intention,
    in list order; the line of an intention that is not expired holds the
    value its action returned, run in the environment the actions before
    it have left. *)
Inductive walk_lines
  (execute_action : pyval -> pyval -> Ext -> Result pyval * Ext)
  (current_time : float)
  : Ext -> list Intention -> list string -> Ext -> Prop :=
| walk_done : forall x, walk_lines execute_action current_time x [] [] x
| walk_expired : forall x i rest rs x',
    expired current_time i = true ->
    walk_lines execute_action current_time x rest rs x' ->
    walk_lines execute_action current_time x (i :: rest)
      (("EXPIRED: " ++ py_str (action i))%string :: rs) x'
| walk_executed : forall x i rest r x1 rs x',
    expired current_time i = false ->
    execute_action (action i) (parameters i) x = (Ok r, x1) ->
    walk_lines execute_action current_time x1 rest rs x' ->
    walk_lines execute_action current_time x (i :: rest)
      (("EXECUTED: " ++ py_str (action i) ++ " -> " ++ py_str r)%string
       :: rs) x'.

(** The line an [except] clause of [reason] prints. *)
Definition failure_line (a : BDIAgent) (e : exn) : string :=
  if is_JSONDecodeError e
  then "[" ++ name a ++ "] Error parsing LLM response: " ++ exn_str e
  else "[" ++ name a ++ "] Error in reasoning: " ++ exn_str e.

(** The belief an entry of [belief_updates] asks for, when the entry is
    well formed: a mapping with a [key] that can be a dictionary key and a
    [value]; [confidence] is optional. *)
Definition belief_of_update (u : pyval) : option (pyval * Belief) :=
  match u with
  | PDict d =>
      match dict_lookup d (PStr "key"), dict_lookup d (PStr "value") with
      | Some k, Some v =>
          if hashable k then
            Some (k, mkBelief k v
                       (match dict_lookup d (PStr "confidence") with
                        | Some c => c
                        | None => DEFAULT_CONFIDENCE
                        end))
          else None
      | _, _ => None
      end
  | _ => None
  end.

Definition well_formed_update (u : pyval) : bool :=
  match belief_of_update u with Some _ => true | None => false end.

(** An entry that is a mapping without [key] or without [value]. *)
Definition missing_key_or_value (u : pyval) : bool :=
  match u with
  | PDict d =>
      match dict_lookup d (PStr "key"), dict_lookup d (PStr "value") with
      | Some _, Some _ => false
      | _, _ => true
      end
  | _ => false
  end.

(** A float that is not a number. *)
Definition nan_key (k : pyval) : bool :=
  match k with
  | PFloat f => negb (PrimFloat.eqb f f)
  | _ => false
  end.

(** A well-formed entry whose [key] is not NaN: a string, as the prompt
    asks for, or [null], a boolean or a number. *)
Definition keyed_update (u : pyval) : bool :=
  match belief_of_update u with
  | Some (k, _) => negb (nan_key k)
  | None => false
  end.

(** The belief map after the well-formed entries [us] are applied in
    order. *)
Definition apply_updates (us : list pyval) (b : list (pyval * Belief))
  : list (pyval * Belief) :=
  fold_left
    (fun acc u =>
       match belief_of_update u with
       | Some (k, bel) => dict_setitem acc k bel
       | None => acc
       end) us b.

(** A sequence of [add_belief(k, v, c)] calls with string identifiers. *)
Fixpoint add_beliefs (calls : list (string * pyval * pyval)) : M Ext unit :=
  match calls with
  | [] => ret tt
  | (k, v, c) :: rest => add_belief (PStr k) v c ;; add_beliefs rest
  end.

(** The arguments of the most recent call for the identifier [k]. *)
Fixpoint last_call (k : string) (calls : list (string * pyval * pyval))
  : option (pyval * pyval) :=
  match calls with
  | [] => None
  | (k', v, c) :: rest =>
      match last_call k rest with
      | Some r => Some r
      | None => if String.eqb k' k then Some (v, c) else None
      end
  end.

(** *** A caller of the agent *)

(** The public operations, as a caller such as the interactive shell
    issues them.  [context] has its declared type, an optional mapping. *)
Inductive op : Type :=
| AddBelief (key0 value0 confidence0 : pyval)
| AddDesire (goal0 priority0 : pyval) (context0 : option (list (pyval * pyval)))
| Reason (perception : string)
| ExecuteIntentions (current_time : float)
| Cycle (perception : string) (current_time : float).

Definition optional_dict (c : option (list (pyval * pyval))) : pyval :=
  match c with
  | Some d => PDict d
  | None => PNone
  end.

Section Caller.
Variable execute_action : pyval -> pyval -> Ext -> Result pyval * Ext.

Definition run_op (o : op) : M Ext unit :=
  match o with
  | AddBelief k v c => add_belief k v c
  | AddDesire g p c => add_desire g p (optional_dict c)
  | Reason perception => _ <- reason perception ;; ret tt
  | ExecuteIntentions t => _ <- execute_intentions execute_action t ;; ret tt
  | Cycle perception t => _ <- cycle execute_action perception t ;; ret tt
  end.

(** The caller goes on after an operation that raised. *)
Fixpoint run_ops (ops : list op) (w : World Ext) : World Ext :=
  match ops with
  | [] => w
  | o :: rest => run_ops rest (snd (run_op o w))
  end.
End Caller.

(** The desire a call [add_desire(goal, priority, context)] stands for:
    its arguments, with an empty mapping for an omitted context. *)
Definition desire_of_call
  (call : pyval * pyval * option (list (pyval * pyval))) : Desire :=
  let '(g, p, c) := call in
  mkDesire g p (match c with Some d => PDict d | None => PDict [] end).

Definition AddDesire_call
  (call : pyval * pyval * option (list (pyval * pyval))) : op :=
  let '(g, p, c) := call in AddDesire g p c.

(** The desires the [add_desire] calls among [ops] append, in call
    order. *)
Fixpoint desires_added (ops : list op) : list Desire :=
  match ops with
  | [] => []
  | AddDesire g p c :: rest => desire_of_call (g, p, c) :: desires_added rest
  | _ :: rest => desires_added rest
  end.
End Specification.

(** ** Replies of the reasoning service, entry by entry *)

(** The field [k] of a parsed reply, or [default] when the reply has no
    such field. *)
Definition field_or (d : list (pyval * pyval)) (k : string) (default : pyval)
  : pyval :=
  match dict_lookup d (PStr k) with
  | Some x => x
  | None => default
  end.

(** The intention an entry of [new_intentions] asks for, when the entry is
    a mapping with an [action]; [parameters] and [deadline] are
    optional. *)
Definition intention_of_entry (u : pyval) : option Intention :=
  match u with
  | PDict d =>
      match dict_lookup d (PStr "action") with
      | Some a =>
          Some (mkIntention a (field_or d "parameters" (PDict []))
                              (field_or d "deadline" PNone))
      | None => None
      end
  | _ => None
  end.

(** The intentions of a list of entries, when every entry has an
    [action]. *)
Fixpoint intentions_of_entries (us : list pyval) : option (list Intention) :=
  match us with
  | [] => Some []
  | u :: rest =>
      match intention_of_entry u, intentions_of_entries rest with
      | Some i, Some l => Some (i :: l)
      | _, _ => None
      end
  end.

(** The call [add_belief(k, v, c)] an entry of [belief_updates] with a
    string identifier stands for. *)
Definition call_of_update (u : pyval) : option (string * pyval * pyval) :=
  match belief_of_update u with
  | Some (PStr k, bel) => Some (k, value bel, confidence bel)
  | _ => None
  end.

Fixpoint calls_of_updates (us : list pyval)
  : option (list (string * pyval * pyval)) :=
  match us with
  | [] => Some []
  | u :: rest =>
      match call_of_update u, calls_of_updates rest with
      | Some c, Some l => Some (c :: l)
      | _, _ => None
      end
  end.

(** A value of [belief_updates] that the loop of [_update_beliefs] cannot
    walk through, or whose first item cannot be an entry: [null], a
    boolean, a number, a string that is not empty. *)
Definition not_a_list_of_updates (v : pyval) : bool :=
  match v with
  | PNone | PBool _ | PInt _ | PFloat _ => true
  | PStr s => negb (String.eqb s EmptyString)
  | PList _ | PDict _ => false
  end.

(** ** Results of the executor, and the display of the agent *)

Section Display.
Context {Ext : Type} {RT : Runtime}.

(** The result line the executor records for the intention [i]: the
    expiry notice when [i] is expired, the result of its action
    otherwise. *)
Definition result_line (current_time : float) (i : Intention)
  (line : string) : Prop :=
  if expired current_time i
  then line = ("EXPIRED: " ++ py_str (action i))%string
  else exists r,
         line = ("EXECUTED: " ++ py_str (action i) ++ " -> " ++ py_str r)
                %string.

(** [s * n] *)
Fixpoint string_times (s : string) (n : nat) : string :=
  match n with
  | O => EmptyString
  | S n' => s ++ string_times s n'
  end.

(** [str(len(l))] *)
Definition str_len {A : Type} (l : list A) : string :=
  py_str (PInt (Z.of_nat (List.length l))).

(** A [for] loop whose body prints one line for each item. *)
Fixpoint print_each {A : Type} (line : A -> string) (items : list A)
  : M Ext unit :=
  match items with
  | [] => ret tt
  | x :: rest => print (line x) ;; print_each line rest
  end.

Definition belief_line (kv : pyval * Belief) : string :=
  "  - " ++ py_str (fst kv) ++ ": " ++ py_str (value (snd kv)) ++
  " (confidence: " ++ py_str (confidence (snd kv)) ++ ")".

Definition desire_line (d : Desire) : string :=
  "  - " ++ py_str (goal d) ++ " (priority: " ++ py_str (priority d) ++ ")".

Definition intention_line (i : Intention) : string :=
  "  - " ++ py_str (action i) ++ " (params: " ++
  py_str (parameters i) ++ ")".

(** [display_agent_state(agent)], for the agent of the world. *)
Definition display_agent_state : M Ext unit :=
  agent <- get_self ;;
  print (nl ++ string_times "=" 50) ;;
  print "CURRENT AGENT STATE" ;;
  print (string_times "=" 50) ;;
  print ("Agent: " ++ name agent) ;;
  print ("Beliefs: " ++ str_len (beliefs agent)) ;;
  print_each belief_line (beliefs agent) ;;
  print ("Desires: " ++ str_len (desires agent)) ;;
  print_each desire_line (desires agent) ;;
  print ("Active Intentions: " ++ str_len (intentions agent)) ;;
  print_each intention_line (intentions agent) ;;
  print (string_times "=" 50).
End Display.

(** ** The interactive shell

    The loop of [interactive_session], from the line [input] returns on.
    The operations on lines are those of [str] on ASCII text: the white
    space of [strip] and [split] is the white space of ASCII, and [lower]
    maps the capital letters of ASCII.  On a line with other characters
    [str] knows more white space and more capitals, so the properties of
    the loop are stated for lines of ASCII characters, [is_ascii].
    The prompt [input] writes is not a line of [stdout], which records the
    calls of [print]. *)

(** A character of ASCII: a code below 128. *)
Definition ascii_char (c : ascii) : bool :=
  match c with
  | Ascii _ _ _ _ _ _ _ b7 => negb b7
  end.

(** [s.isascii()] *)
Fixpoint is_ascii (s : string) : bool :=
  match s with
  | EmptyString => true
  | String c r => ascii_char c && is_ascii r
  end.

(** [c.isspace()]: tab, line feed, vertical tab, form feed, carriage
    return, the four separators and the space. *)
Definition is_space (c : ascii) : bool :=
  let n := nat_of_ascii c in
  (Nat.leb 9 n && Nat.leb n 13) || (Nat.leb 28 n && Nat.leb n 32).

Fixpoint lstrip (s : string) : string :=
  match s with
  | EmptyString => EmptyString
  | String c r => if is_space c then lstrip r else s
  end.

Fixpoint rstrip (s : string) : string :=
  match s with
  | EmptyString => EmptyString
  | String c r =>
      match rstrip r with
      | EmptyString => if is_space c then EmptyString else String c EmptyString
      | r' => String c r'
      end
  end.

(** [s.strip()] *)
Definition strip (s : string) : string := rstrip (lstrip s).

Definition lower_char (c : ascii) : ascii :=
  let n := nat_of_ascii c in
  if Nat.leb 65 n && Nat.leb n 90 then ascii_of_nat (n + 32) else c.

(** [s.lower()] *)
Fixpoint lower (s : string) : string :=
  match s with
  | EmptyString => EmptyString
  | String c r => String (lower_char c) (lower r)
  end.

(** The word at the head of a string that starts with no white space, and
    what follows it. *)
Fixpoint take_word (s : string) : string * string :=
  match s with
  | EmptyString => (EmptyString, EmptyString)
  | String c r =>
      if is_space c then (EmptyString, s)
      else let (w, rest) := take_word r in (String c w, rest)
  end.

(** [s.split(maxsplit=n)]: at most [n] words are split off; what is left,
    when it is more than white space, is the last part, with the white
    space before it dropped and the white space after it kept. *)
Fixpoint split_ws (maxsplit : nat) (s : string) : list string :=
  match lstrip s with
  | EmptyString => []
  | s' =>
      match maxsplit with
      | O => [s']
      | S n => let (w, rest) := take_word s' in w :: split_ws n rest
      end
  end.

(** A string without white space. *)
Fixpoint one_word (s : string) : bool :=
  match s with
  | EmptyString => true
  | String c r => negb (is_space c) && one_word r
  end.

(** [int] on a string, [None] for its [ValueError]. *)
Class ShellRuntime : Type := mkShellRuntime
  { int_of_str : string -> option Z }.

(** What [input] does in a turn of the loop: it returns a line, it raises
    an exception derived from [Exception] ([EOFError] at the end of the
    input), or the user interrupts it from the keyboard and it raises
    [KeyboardInterrupt].  An interrupt that arrives while a line is being
    processed is outside the model. *)
Inductive input_event : Type :=
| Line (line : string)
| InputError (e : exn)
| Interrupt.

(** The event is a line of ASCII characters, or no line. *)
Definition ascii_event (event : input_event) : bool :=
  match event with
  | Line line => is_ascii line
  | _ => true
  end.

(** The events at which the loop ends: an interrupt, and the lines that,
    stripped and in lower case, read [quit] or [exit]. *)
Definition ends_session (event : input_event) : bool :=
  match event with
  | Line line =>
      String.eqb (lower (strip line)) "quit" ||
      String.eqb (lower (strip line)) "exit"
  | InputError _ => false
  | Interrupt => true
  end.

Section Shell.
Context {Ext : Type} {RT : Runtime} {SRT : ShellRuntime}.
(** The agent of the session is a plain [BDIAgent], whose action is
    [execute_action_default]; the loop is written for any action on the
    environment, that one included. *)
Variable execute_action : pyval -> pyval -> Ext -> Result pyval * Ext.

(** [str(n)] for a count [n] *)
Definition str_nat (n : nat) : string := py_str (PInt (Z.of_nat n)).

(** The branch of the command [add belief]. *)
Definition add_belief_command (user_input : string) : M Ext unit :=
  match split_ws 3 user_input with
  | _ :: _ :: key0 :: value0 :: more =>
      let confidence0 :=
        match more with
        | p4 :: _ =>
            match float_of_str p4 with
            | Some f => PFloat f
            | None => PFloat 1
            end
        | [] => PFloat 1
        end in
      add_belief (PStr key0) (PStr value0) confidence0 ;;
      print ("✅ Added belief: " ++ key0 ++ " = " ++ value0 ++
             " (confidence: " ++ py_str confidence0 ++ ")")
  | _ => print "❌ Format: add belief <key> <value> [confidence]"
  end.

(** The branch of the command [add desire]. *)
Definition add_desire_command (user_input : string) : M Ext unit :=
  match split_ws 3 user_input with
  | _ :: _ :: goal0 :: more =>
      let priority0 :=
        match more with
        | p3 :: _ =>
            match int_of_str p3 with
            | Some z => PInt z
            | None => PInt 1
            end
        | [] => PInt 1
        end in
      add_desire (PStr goal0) priority0 PNone ;;
      print ("✅ Added desire: " ++ goal0 ++
             " (priority: " ++ py_str priority0 ++ ")")
  | _ => print "❌ Format: add desire <goal> [priority]"
  end.

(** The line forwarded to the agent as a perception, and the report of
    the cycle. *)
Definition forward (user_input : string) (current_time : float)
  : M Ext unit :=
  print (nl ++ "🧠 Processing...") ;;
  result <- cycle execute_action user_input current_time ;;
  print (nl ++ "🤖 Agent Response:") ;;
  print ("   Intentions formed: " ++ str_nat (intentions_formed result)) ;;
  print ("   Actions executed: " ++
         str_nat (List.length (actions_executed result))) ;;
  match actions_executed result with
  | [] => ret tt
  | lines => print_each (fun line => ("     - " ++ line)%string) lines
  end ;;
  print ("   Current beliefs: " ++
         str_nat (List.length (current_beliefs result))) ;;
  print ("   Active desires: " ++ str_nat (active_desires result)).

(** The [try] block of the loop once [input] has returned [line]; [false]
    when it ends in [break]. *)
Definition session_body (line : string) (current_time : float)
  : M Ext bool :=
  let user_input := strip line in
  let lowered := lower user_input in
  if String.eqb lowered "quit" || String.eqb lowered "exit" then
    print "👋 Goodbye! Session ended." ;; ret false
  else if String.eqb lowered "show state" then
    display_agent_state ;; ret true
  else if String.prefix "add belief" lowered then
    add_belief_command user_input ;; ret true
  else if String.prefix "add desire" lowered then
    add_desire_command user_input ;; ret true
  else if String.eqb user_input EmptyString then ret true
  else forward user_input current_time ;; ret true.

(** The clause [except Exception as e] of the loop. *)
Definition session_except (e : exn) : M Ext bool :=
  print ("❌ Error: " ++ exn_str e) ;;
  print "Please try again." ;;
  ret true.

(** The clause [except KeyboardInterrupt] of the loop, which ends in
    [break]. *)
Definition session_interrupted : M Ext bool :=
  print (nl ++ nl ++ "👋 Session interrupted. Goodbye!") ;;
  ret false.

(** One turn of the loop, for what [input] does in it; [false] when the
    turn ends the loop. *)
Definition session_step (event : input_event) (current_time : float)
  : M Ext bool :=
  match event with
  | Line line => try_except (session_body line current_time) session_except
  | InputError e => try_except (raise e) session_except
  | Interrupt => session_interrupted
  end.

(** The turns of the loop for the given events, up to the [break]. *)
Fixpoint session_loop (events : list (input_event * float)) : M Ext unit :=
  match events with
  | [] => ret tt
  | (event, current_time) :: rest =>
      go_on <- session_step event current_time ;;
      if go_on : bool then session_loop rest else ret tt
  end.
End Shell.

(** ** Frames

    [preserves R m]: whatever the world, running [m] takes it to a world
    related to it by [R], whether [m] returns or raises. *)
Definition preserves {Ext A : Type}
  (R : World Ext -> World Ext -> Prop) (m : M Ext A) : Prop :=
  forall w, R w (snd (m w)).

(** The relations a frame is stated for: every world is related to
    itself, and the relation composes along a run. *)
Class Frame {Ext : Type} (R : World Ext -> World Ext -> Prop) : Prop :=
  { frame_refl : forall w, R w w;
    frame_trans : forall a b c, R a b -> R b c -> R a c }.

Definition same_desires {Ext : Type} (w w' : World Ext) : Prop :=
  desires (self w') = desires (self w).

Definition same_intentions {Ext : Type} (w w' : World Ext) : Prop :=
  intentions (self w') = intentions (self w).

Definition same_beliefs {Ext : Type} (w w' : World Ext) : Prop :=
  beliefs (self w') = beliefs (self w).

Definition same_env {Ext : Type} (w w' : World Ext) : Prop :=
  env w' = env w.

Definition keeps_wf {Ext : Type} (w w' : World Ext) : Prop :=
  dict_wf (beliefs (self w)) -> dict_wf (beliefs (self w')).

(** ** Test doubles

    A runtime to run the agent on concrete inputs.  The stand-ins for
    [json.loads], [float], [repr] and [str] agree with the library on the
    texts and values they are given below; the stand-in for the reasoning
    service ignores its prompt, so that of [json.dumps] is immaterial. *)

Definition quoted (s : string) : string := dq ++ s ++ dq.

(** The reply
    [{"belief_updates": [{"key":"mood","value":"calm","confidence":0.6}],
      "new_intentions": [{"action":"rest"}], "reasoning":"ok"}]. *)
Definition example_reply_text : string :=
  "{" ++ quoted "belief_updates" ++ ": [{" ++
  quoted "key" ++ ":" ++ quoted "mood" ++ "," ++
  quoted "value" ++ ":" ++ quoted "calm" ++ "," ++
  quoted "confidence" ++ ":0.6}], " ++
  quoted "new_intentions" ++ ": [{" ++
  quoted "action" ++ ":" ++ quoted "rest" ++ "}], " ++
  quoted "reasoning" ++ ":" ++ quoted "ok" ++ "}".

(** The binary64 number nearest to 0.6, which is what [0.6] denotes. *)
Definition float_0_6 : float := 0x1.3333333333333p-1%float.

(** What [json.loads] makes of [example_reply_text]. *)
Definition example_reply : pyval :=
  PDict
    [(PStr "belief_updates",
      PList [PDict [(PStr "key", PStr "mood"); (PStr "value", PStr "calm");
                    (PStr "confidence", PFloat float_0_6)]]);
     (PStr "new_intentions", PList [PDict [(PStr "action", PStr "rest")]]);
     (PStr "reasoning", PStr "ok")].

(** A reply whose second belief update has no [value]:
    [{"belief_updates": [{"key":"mood","value":"calm"}, {"key":"time"}],
      "new_intentions": [{"action":"rest"}]}]. *)
Definition partial_reply_text : string :=
  "{" ++ quoted "belief_updates" ++ ": [{" ++
  quoted "key" ++ ":" ++ quoted "mood" ++ "," ++
  quoted "value" ++ ":" ++ quoted "calm" ++ "}, {" ++
  quoted "key" ++ ":" ++ quoted "time" ++ "}], " ++
  quoted "new_intentions" ++ ": [{" ++
  quoted "action" ++ ":" ++ quoted "rest" ++ "}]}".

Definition partial_reply_updates : list (pyval * pyval) :=
  [(PStr "belief_updates",
    PList [PDict [(PStr "key", PStr "mood"); (PStr "value", PStr "calm")];
           PDict [(PStr "key", PStr "time")]]);
   (PStr "new_intentions", PList [PDict [(PStr "action", PStr "rest")]])].

Definition test_json_loads (s : string) : Result pyval :=
  if String.eqb s example_reply_text then Ok example_reply
  else if String.eqb s partial_reply_text then Ok (PDict partial_reply_updates)
  else Raise JSONDecodeError.

Definition test_repr (v : pyval) : string :=
  match v with
  | PNone => "None"
  | PBool true => "True"
  | PBool false => "False"
  | PDict [] => "{}"
  | PList [] => "[]"
  | PInt 0 => "0"
  | _ => "..."
  end.

Definition test_exn_str (e : exn) : string :=
  match e with
  | JSONDecodeError => "Expecting value: line 1 column 1 (char 0)"
  | KeyError (PStr k) => "'" ++ k ++ "'"
  | _ => "error"
  end.

Definition test_float_of_str (s : string) : option float :=
  if String.eqb s "5" then Some 5%float else None.

(** A runtime whose reasoning service answers every prompt with [reply]. *)
Definition test_runtime (reply : Result (option string)) : Runtime :=
  {| llm := fun _ => reply;
     json_loads := test_json_loads;
     json_dumps := fun _ => "{}";
     float_of_str := test_float_of_str;
     py_repr := test_repr;
     exn_str := test_exn_str |}.

Definition test_rt : Runtime :=
  test_runtime (Ok (Some example_reply_text)).

(** An override of [execute_action] that counts its calls in the
    environment and fails on the action [explode]. *)
Definition test_action (a p : pyval) (calls : nat) : Result pyval * nat :=
  match a with
  | PStr "explode" => (Raise (OtherException "RuntimeError"), S calls)
  | _ => (Ok (PStr "done"), S calls)
  end.

Definition test_agent (l : list Intention) : BDIAgent :=
  mkAgent "TaskBot" "You are a helpful task management agent." [] [] l.

Definition test_world (l : list Intention) : World nat :=
  mkWorld (test_agent l) [] 0.

(** A runtime whose reasoning service answers in prose. *)
Definition prose_rt : Runtime :=
  test_runtime (Ok (Some "I would rather take a break now.")).

Definition partial_rt : Runtime :=
  test_runtime (Ok (Some partial_reply_text)).

Definition greet : Intention := mkIntention (PStr "greet") (PDict []) PNone.

(** Due at second 5 of the epoch, the deadline given as a string. *)
Definition remind : Intention :=
  mkIntention (PStr "remind") (PDict []) (PStr "5").

(** Due at the epoch itself. *)
Definition backup : Intention :=
  mkIntention (PStr "backup") (PDict []) (PFloat 0).

Definition explode : Intention :=
  mkIntention (PStr "explode") (PDict []) PNone.

(** An agent that holds a belief, a desire and an intention formed by an
    earlier call of [reason] and not executed yet. *)
Definition standing_world : World nat :=
  mkWorld
    (mkAgent "TaskBot" "You are a helpful task management agent."
       [(PStr "energy_level",
         mkBelief (PStr "energy_level") (PStr "high") (PFloat 0.5))]
       [mkDesire (PStr "take_break") (PInt 2) (PDict [])]
       [greet])
    [] 0.

(** ** More test doubles *)

(** A runtime whose reasoning service answers every prompt with [text],
    which [json.loads] reads as [parsed]. *)
Definition reply_rt (text : string) (parsed : pyval) : Runtime :=
  {| llm := fun _ => Ok (Some text);
     json_loads :=
       fun s => if String.eqb s text then Ok parsed else Raise JSONDecodeError;
     json_dumps := fun _ => "{}";
     float_of_str := test_float_of_str;
     py_repr :=
       fun v =>
         match v with
         | PInt z => NilZero.string_of_int (Z.to_int z)
         | PFloat f => if PrimFloat.Leibniz.eqb f 1 then "1.0" else "..."
         | _ => test_repr v
         end;
     exn_str :=
       fun e =>
         match e with
         | AttributeError => "'list' object has no attribute 'get'"
         | TypeError => "'NoneType' object is not iterable"
         | _ => test_exn_str e
         end |}.

(** The reply [[]]. *)
Definition list_rt : Runtime := reply_rt "[]" (PList []).

(** The reply
    [{"belief_updates": [{"key":"mood","value":"calm"}],
      "new_intentions": [{"action":"rest"}, {"parameters":{}}]}],
    whose second intention has no [action]. *)
Definition no_action_text : string :=
  "{" ++ quoted "belief_updates" ++ ": [{" ++
  quoted "key" ++ ":" ++ quoted "mood" ++ "," ++
  quoted "value" ++ ":" ++ quoted "calm" ++ "}], " ++
  quoted "new_intentions" ++ ": [{" ++
  quoted "action" ++ ":" ++ quoted "rest" ++ "}, {" ++
  quoted "parameters" ++ ":{}}]}".

Definition no_action_reply : list (pyval * pyval) :=
  [(PStr "belief_updates",
    PList [PDict [(PStr "key", PStr "mood"); (PStr "value", PStr "calm")]]);
   (PStr "new_intentions",
    PList [PDict [(PStr "action", PStr "rest")];
           PDict [(PStr "parameters", PDict [])]])].

Definition no_action_rt : Runtime :=
  reply_rt no_action_text (PDict no_action_reply).

(** The reply [{"belief_updates": null, "new_intentions": [{"action":"rest"}]}]. *)
Definition null_updates_text : string :=
  "{" ++ quoted "belief_updates" ++ ": null, " ++
  quoted "new_intentions" ++ ": [{" ++
  quoted "action" ++ ":" ++ quoted "rest" ++ "}]}".

Definition null_updates_reply : list (pyval * pyval) :=
  [(PStr "belief_updates", PNone);
   (PStr "new_intentions", PList [PDict [(PStr "action", PStr "rest")]])].

Definition null_updates_rt : Runtime :=
  reply_rt null_updates_text (PDict null_updates_reply).

(** The reply
    [{"belief_updates": [{"value":"late"}, {"key":"mood","value":"calm"},
                         {"key":"time"}]}],
    whose first belief update has no [key] and whose third has no
    [value]. *)
Definition broken_reply_text : string :=
  "{" ++ quoted "belief_updates" ++ ": [{" ++
  quoted "value" ++ ":" ++ quoted "late" ++ "}, {" ++
  quoted "key" ++ ":" ++ quoted "mood" ++ "," ++
  quoted "value" ++ ":" ++ quoted "calm" ++ "}, {" ++
  quoted "key" ++ ":" ++ quoted "time" ++ "}]}".

Definition broken_reply_updates : list pyval :=
  [PDict [(PStr "value", PStr "late")];
   PDict [(PStr "key", PStr "mood"); (PStr "value", PStr "calm")];
   PDict [(PStr "key", PStr "time")]].

Definition broken_rt : Runtime :=
  reply_rt broken_reply_text
    (PDict [(PStr "belief_updates", PList broken_reply_updates)]).

(** The example reply, with [repr] for numbers. *)
Definition example_rt : Runtime := reply_rt example_reply_text example_reply.

(** An action that always returns, and counts its calls. *)
Definition count_action (a p : pyval) (calls : nat) : Result pyval * nat :=
  (Ok (PStr "done"), S calls).

(** The same action, as a method that leaves the agent alone. *)
Definition count_method (a p : pyval) : M nat pyval :=
  on_env (count_action a p).

(** Due at second 10 of the epoch. *)
Definition due_at_ten : Intention :=
  mkIntention (PStr "report") (PDict []) (PFloat 10).

Definition test_shell : ShellRuntime :=
  {| int_of_str := fun s => if String.eqb s "2" then Some 2%Z else None |}.

(** * Properties *)

(** ** Values and dictionaries *)

Lemma py_is_refl : forall v, py_is v v = true.
Proof.
  fix IH 1.
  intros [ | b | z | f | s | l | d]; simpl.
  - reflexivity.
  - apply Bool.eqb_reflx.
  - apply Z.eqb_refl.
  - apply FloatAxioms.Leibniz.eqb_spec. reflexivity.
  - apply String.eqb_refl.
  - induction l as [ | x xs IHxs]; [reflexivity | ].
    rewrite IH, IHxs. reflexivity.
  - induction d as [ | [k v] xs IHxs]; [reflexivity | ].
    rewrite !IH, IHxs. reflexivity.
Qed.

Lemma Intention_is_refl : forall i, Intention_is i i = true.
Proof.
  intros i. unfold Intention_is. now rewrite !py_is_refl.
Qed.

(** Removing the item at the head of the list always succeeds. *)
Lemma list_remove_head : forall i l, list_remove i (i :: l) = Some l.
Proof.
  intros i l. simpl. now rewrite Intention_is_refl.
Qed.

(** A string key answers only to itself. *)
Lemma key_eq_PStr : forall k s, key_eq k (PStr s) = true <-> k = PStr s.
Proof.
  intros k s. split.
  - destruct k; simpl; try discriminate.
    intros H. apply String.eqb_eq in H. now subst.
  - intros ->. simpl. apply String.eqb_refl.
Qed.

Section DictFacts.
Context {V : Type}.
Implicit Types (d : list (pyval * V)) (k : pyval) (v : V).

Lemma dict_lookup_setitem_same : forall d s v,
  dict_lookup (dict_setitem d (PStr s) v) (PStr s) = Some v.
Proof.
  induction d as [ | [k' v'] r IH]; intros s v; simpl.
  - now rewrite String.eqb_refl.
  - destruct (key_eq k' (PStr s)) eqn:E; simpl; rewrite E; auto.
Qed.

Lemma dict_lookup_setitem_other : forall d k k0 v,
  key_eq k0 k = false ->
  (forall k', key_eq k' k0 = true -> key_eq k' k = false) ->
  dict_lookup (dict_setitem d k0 v) k = dict_lookup d k.
Proof.
  induction d as [ | [k' v'] r IH]; intros k k0 v Hne Hsep; simpl.
  - now rewrite Hne.
  - destruct (key_eq k' k0) eqn:E; simpl.
    + now rewrite (Hsep _ E).
    + destruct (key_eq k' k); auto.
Qed.

Lemma dict_lookup_None_Forall : forall d k,
  dict_lookup d k = None <-> Forall (fun kv => key_eq (fst kv) k = false) d.
Proof.
  induction d as [ | [k' v'] r IH]; intros k; simpl.
  - split; auto.
  - destruct (key_eq k' k) eqn:E.
    + split; [discriminate | ].
      intros H. inversion H; subst. simpl in *. congruence.
    + rewrite IH. split; intros H.
      * constructor; auto.
      * now inversion H.
Qed.
End DictFacts.

(** ** Frames of the monad *)

Section FrameRules.
Context {Ext : Type} (R : World Ext -> World Ext -> Prop) {FR : Frame R}.

Lemma preserves_ret : forall A (a : A), preserves R (ret a).
Proof. intros A a w. apply frame_refl. Qed.

Lemma preserves_raise : forall A e, preserves R (@raise Ext A e).
Proof. intros A e w. apply frame_refl. Qed.

Lemma preserves_lift : forall A (r : Result A), preserves R (lift r).
Proof. intros A r w. apply frame_refl. Qed.

Lemma preserves_get_self : preserves R get_self.
Proof. intros w. apply frame_refl. Qed.

Lemma preserves_bind : forall A B (m : M Ext A) (k : A -> M Ext B),
  preserves R m -> (forall a, preserves R (k a)) -> preserves R (bind m k).
Proof.
  intros A B m k Hm Hk w. unfold bind.
  specialize (Hm w). destruct (m w) as [[a | e] w']; simpl in *.
  - eapply frame_trans; [exact Hm | apply Hk].
  - exact Hm.
Qed.

Lemma preserves_try_except : forall A (m : M Ext A) (h : exn -> M Ext A),
  preserves R m -> (forall e, preserves R (h e)) ->
  preserves R (try_except m h).
Proof.
  intros A m h Hm Hh w. unfold try_except.
  specialize (Hm w). destruct (m w) as [[a | e] w']; simpl in *.
  - exact Hm.
  - eapply frame_trans; [exact Hm | apply Hh].
Qed.
End FrameRules.

#[local] Instance same_desires_Frame {Ext} : Frame (@same_desires Ext).
Proof. split; unfold same_desires; congruence. Qed.

#[local] Instance same_intentions_Frame {Ext} : Frame (@same_intentions Ext).
Proof. split; unfold same_intentions; congruence. Qed.

#[local] Instance same_beliefs_Frame {Ext} : Frame (@same_beliefs Ext).
Proof. split; unfold same_beliefs; congruence. Qed.

#[local] Instance same_env_Frame {Ext} : Frame (@same_env Ext).
Proof. split; unfold same_env; congruence. Qed.

#[local] Instance keeps_wf_Frame {Ext} : Frame (@keeps_wf Ext).
Proof. split; unfold keeps_wf; auto. Qed.

Create HintDb frame.
#[local] Hint Resolve preserves_ret preserves_raise preserves_lift
  preserves_get_self preserves_bind preserves_try_except : frame.

Ltac frame_bind := apply preserves_bind; [exact _ | | ].
Ltac frame_try := apply preserves_try_except; [exact _ | | ].

(** Solves a frame goal of a method built from [bind], [try_except] and
    methods whose frames are in the hint database. *)
Ltac frame :=
  repeat first
    [ match goal with |- forall _, _ => intro end
    | solve [auto with frame typeclass_instances]
    | apply preserves_bind
    | apply preserves_try_except
    | match goal with
      | |- preserves _ (if ?c then _ else _) => destruct c
      | |- preserves _ (match ?c with _ => _ end) => destruct c
      end ].

(** ** The belief map keeps one entry per key *)

Section SetItem.
Context {V : Type}.
Implicit Types (d : list (pyval * V)) (k : pyval) (v : V).

Lemma dict_keys_setitem : forall d k v,
  dict_keys (dict_setitem d k v) =
  match dict_lookup d k with
  | Some _ => dict_keys d
  | None => dict_keys d ++ [k]
  end.
Proof.
  unfold dict_keys.
  induction d as [ | [k' v'] r IH]; intros k v; simpl; [reflexivity | ].
  destruct (key_eq k' k); simpl; [reflexivity | ].
  rewrite IH. now destruct (dict_lookup r k).
Qed.

Lemma keys_wf_snoc : forall ks k,
  keys_wf ks -> Forall (fun k' => key_eq k' k = false) ks ->
  keys_wf (ks ++ [k]).
Proof.
  induction ks as [ | k0 r IH]; intros k Hwf Hnew; simpl.
  - split; [constructor | exact I].
  - destruct Hwf as [Hhead Hrest]. inversion Hnew; subst. split.
    + apply Forall_app. split; [assumption | ]. constructor; auto.
    + apply IH; assumption.
Qed.

(** [d[k] = v] keeps the invariant, whatever the key. *)
Lemma dict_wf_setitem : forall d k v,
  dict_wf d -> dict_wf (dict_setitem d k v).
Proof.
  intros d k v Hwf. unfold dict_wf in *. rewrite dict_keys_setitem.
  destruct (dict_lookup d k) eqn:E; [assumption | ].
  apply keys_wf_snoc; [assumption | ].
  apply dict_lookup_None_Forall in E.
  unfold dict_keys. apply Forall_map. exact E.
Qed.

(** In a well-formed map a string identifier that is present has exactly
    one entry. *)
Lemma dict_count_one : forall d s v,
  dict_wf d -> dict_lookup d (PStr s) = Some v -> dict_count d (PStr s) = 1.
Proof.
  unfold dict_wf, dict_count, dict_keys.
  induction d as [ | [k' v'] r IH]; intros s v Hwf Hl; simpl in *.
  - discriminate.
  - destruct Hwf as [Hhead Hrest].
    destruct (key_eq k' (PStr s)) eqn:E; simpl.
    + apply key_eq_PStr in E. subst k'. f_equal.
      assert (Hnone : filter (fun kv => key_eq (fst kv) (PStr s)) r = []).
      { clear - Hhead. induction r as [ | [k2 v2] r IHr]; simpl; auto.
        inversion Hhead; subst. simpl in *.
        destruct (key_eq k2 (PStr s)) eqn:E2.
        - apply key_eq_PStr in E2. subst k2. simpl in *.
          rewrite String.eqb_refl in *. discriminate.
        - apply IHr. assumption. }
      now rewrite Hnone.
    + eapply IH; eassumption.
Qed.
End SetItem.

(** ** Frames of the primitive steps *)

Section PrimitiveFrames.
Context {Ext : Type}.

Ltac by_fields := intros; intro w; exact eq_refl.

Lemma set_beliefs_same_desires : forall b,
  preserves (@same_desires Ext) (set_beliefs b).
Proof. by_fields. Qed.

Lemma set_beliefs_same_intentions : forall b,
  preserves (@same_intentions Ext) (set_beliefs b).
Proof. by_fields. Qed.

Lemma set_beliefs_same_env : forall b,
  preserves (@same_env Ext) (set_beliefs b).
Proof. by_fields. Qed.

Lemma set_desires_same_beliefs : forall d,
  preserves (@same_beliefs Ext) (set_desires d).
Proof. by_fields. Qed.

Lemma set_desires_same_intentions : forall d,
  preserves (@same_intentions Ext) (set_desires d).
Proof. by_fields. Qed.

Lemma set_desires_same_env : forall d,
  preserves (@same_env Ext) (set_desires d).
Proof. by_fields. Qed.

Lemma set_desires_keeps_wf : forall d,
  preserves (@keeps_wf Ext) (set_desires d).
Proof. intros d w H. exact H. Qed.

Lemma set_intentions_same_desires : forall i,
  preserves (@same_desires Ext) (set_intentions i).
Proof. by_fields. Qed.

Lemma set_intentions_same_beliefs : forall i,
  preserves (@same_beliefs Ext) (set_intentions i).
Proof. by_fields. Qed.

Lemma set_intentions_same_env : forall i,
  preserves (@same_env Ext) (set_intentions i).
Proof. by_fields. Qed.

Lemma set_intentions_keeps_wf : forall i,
  preserves (@keeps_wf Ext) (set_intentions i).
Proof. intros i w H. exact H. Qed.

Lemma print_same_desires : forall line,
  preserves (@same_desires Ext) (print line).
Proof. by_fields. Qed.

Lemma print_same_beliefs : forall line,
  preserves (@same_beliefs Ext) (print line).
Proof. by_fields. Qed.

Lemma print_same_intentions : forall line,
  preserves (@same_intentions Ext) (print line).
Proof. by_fields. Qed.

Lemma print_same_env : forall line,
  preserves (@same_env Ext) (print line).
Proof. by_fields. Qed.

Lemma print_keeps_wf : forall line,
  preserves (@keeps_wf Ext) (print line).
Proof. intros line w H. exact H. Qed.

Lemma on_env_same_desires : forall A (f : Ext -> Result A * Ext),
  preserves same_desires (on_env f).
Proof. intros A f w. unfold on_env. now destruct (f (env w)). Qed.

Lemma on_env_same_beliefs : forall A (f : Ext -> Result A * Ext),
  preserves same_beliefs (on_env f).
Proof. intros A f w. unfold on_env. now destruct (f (env w)). Qed.

Lemma on_env_same_intentions : forall A (f : Ext -> Result A * Ext),
  preserves same_intentions (on_env f).
Proof. intros A f w. unfold on_env. now destruct (f (env w)). Qed.

Lemma on_env_keeps_wf : forall A (f : Ext -> Result A * Ext),
  preserves keeps_wf (on_env f).
Proof.
  intros A f w. unfold on_env, keeps_wf. now destruct (f (env w)).
Qed.
End PrimitiveFrames.

#[local] Hint Resolve
  set_beliefs_same_desires set_beliefs_same_intentions set_beliefs_same_env
  set_desires_same_beliefs set_desires_same_intentions set_desires_same_env
  set_desires_keeps_wf
  set_intentions_same_desires set_intentions_same_beliefs
  set_intentions_same_env set_intentions_keeps_wf
  print_same_desires print_same_beliefs print_same_intentions print_same_env
  print_keeps_wf
  on_env_same_desires on_env_same_beliefs on_env_same_intentions
  on_env_keeps_wf : frame.

(** ** Frames of the methods *)

Section AddFrames.
Context {Ext : Type} {RT : Runtime}.

Lemma add_belief_same_desires : forall k v c,
  preserves (@same_desires Ext) (add_belief k v c).
Proof. intros k v c. unfold add_belief. frame. Qed.

Lemma add_belief_same_intentions : forall k v c,
  preserves (@same_intentions Ext) (add_belief k v c).
Proof. intros k v c. unfold add_belief. frame. Qed.

Lemma add_belief_same_env : forall k v c,
  preserves (@same_env Ext) (add_belief k v c).
Proof. intros k v c. unfold add_belief. frame. Qed.

Lemma add_belief_keeps_wf : forall k v c,
  preserves (@keeps_wf Ext) (add_belief k v c).
Proof.
  intros k v c w Hwf. unfold add_belief, bind, get_self.
  destruct (hashable k); simpl; [ | exact Hwf].
  now apply dict_wf_setitem.
Qed.

Lemma add_desire_same_beliefs : forall g p c,
  preserves (@same_beliefs Ext) (add_desire g p c).
Proof. intros g p c. unfold add_desire. frame. Qed.

Lemma add_desire_same_intentions : forall g p c,
  preserves (@same_intentions Ext) (add_desire g p c).
Proof. intros g p c. unfold add_desire. frame. Qed.

Lemma add_desire_keeps_wf : forall g p c,
  preserves (@keeps_wf Ext) (add_desire g p c).
Proof. intros g p c. unfold add_desire. frame. Qed.
End AddFrames.

#[local] Hint Resolve add_belief_same_desires add_belief_same_intentions
  add_belief_same_env add_belief_keeps_wf add_desire_same_beliefs
  add_desire_same_intentions add_desire_keeps_wf : frame.

(** What the executor leaves alone: any relation that printing, storing the
    intention list and running an action respect. *)
Section ExecutorFrames.
Context {Ext : Type} {RT : Runtime}.
Context (R : World Ext -> World Ext -> Prop) {FR : Frame R}.
Hypothesis R_print : forall line, preserves R (print line).
Hypothesis R_set_intentions : forall i, preserves R (set_intentions i).
Hypothesis R_on_env :
  forall A (f : Ext -> Result A * Ext), preserves R (on_env f).
Variable execute_action : pyval -> pyval -> Ext -> Result pyval * Ext.

Hint Resolve R_print R_set_intentions R_on_env : frame.

Lemma remove_intention_preserves : forall i,
  preserves R (remove_intention i).
Proof.
  intros i. unfold remove_intention.
  frame_bind; [auto with frame | intros a].
  destruct (list_remove i (intentions a)); auto with frame.
Qed.

Hint Resolve remove_intention_preserves : frame.

Lemma check_expired_preserves : forall t i results,
  preserves R (check_expired t i results).
Proof. intros t i results. unfold check_expired. frame. Qed.

Hint Resolve check_expired_preserves : frame.

Lemma execute_loop_preserves : forall t snapshot results,
  preserves R (execute_loop execute_action t snapshot results).
Proof.
  intros t snapshot.
  induction snapshot as [ | i rest IH]; intros results; simpl.
  - auto with frame.
  - frame_bind.
    + destruct (truthy (deadline i)); auto with frame.
    + intros [results' | ]; [apply IH | ].
      frame_bind; [auto with frame | intros r].
      frame_bind; [auto with frame | intros _]. apply IH.
Qed.

Lemma execute_intentions_preserves : forall t,
  preserves R (execute_intentions execute_action t).
Proof.
  intros t. unfold execute_intentions.
  frame_bind; [auto with frame | intros a].
  apply execute_loop_preserves.
Qed.
End ExecutorFrames.

(** What the reasoning cycle leaves alone as well: such a relation that
    [add_belief] respects too. *)
Section ReasonFrames.
Context {Ext : Type} {RT : Runtime}.
Context (R : World Ext -> World Ext -> Prop) {FR : Frame R}.
Hypothesis R_print : forall line, preserves R (print line).
Hypothesis R_set_intentions : forall i, preserves R (set_intentions i).
Hypothesis R_on_env :
  forall A (f : Ext -> Result A * Ext), preserves R (on_env f).
Hypothesis R_add_belief : forall k v c, preserves R (add_belief k v c).
Variable execute_action : pyval -> pyval -> Ext -> Result pyval * Ext.

Hint Resolve R_print R_set_intentions R_on_env R_add_belief : frame.

Lemma for_each_preserves : forall (body : pyval -> M Ext unit),
  (forall x, preserves R (body x)) ->
  forall items, preserves R (for_each items body).
Proof.
  intros body Hbody items.
  induction items as [ | x rest IH]; simpl; frame.
Qed.

Lemma update_belief_preserves : forall u, preserves R (update_belief u).
Proof. intros u. unfold update_belief. frame. Qed.

Lemma _update_beliefs_preserves : forall us, preserves R (_update_beliefs us).
Proof.
  intros us. unfold _update_beliefs.
  frame_bind; [auto with frame | intros items].
  apply for_each_preserves. apply update_belief_preserves.
Qed.

Lemma create_intentions_loop_preserves : forall items acc,
  preserves R (create_intentions_loop (Ext:=Ext) items acc).
Proof.
  induction items as [ | x rest IH]; intros acc; simpl; frame.
Qed.

Lemma _create_intentions_preserves : forall data,
  preserves R (_create_intentions (Ext:=Ext) data).
Proof.
  intros data. unfold _create_intentions.
  frame_bind; [auto with frame | intros items].
  apply create_intentions_loop_preserves.
Qed.

Hint Resolve _update_beliefs_preserves _create_intentions_preserves : frame.

Lemma reason_try_preserves : forall prompt, preserves R (reason_try prompt).
Proof. intros prompt. unfold reason_try, _log_reasoning. frame. Qed.

Lemma reason_except_preserves : forall e, preserves R (reason_except e).
Proof. intros e. unfold reason_except. frame. Qed.

Lemma reason_preserves : forall perception, preserves R (reason perception).
Proof.
  intros perception. unfold reason.
  frame_bind; [auto with frame | intros a].
  frame_try; [apply reason_try_preserves | apply reason_except_preserves].
Qed.

Lemma cycle_preserves : forall perception t,
  preserves R (cycle execute_action perception t).
Proof.
  intros perception t. unfold cycle.
  frame_bind; [apply reason_preserves | intros formed].
  frame_bind;
    [apply execute_intentions_preserves; auto with frame | intros rs].
  frame.
Qed.
End ReasonFrames.

(** ** The executor refines its description *)

Section ExecutorFacts.
Context {Ext : Type} {RT : Runtime}.
Variable execute_action : pyval -> pyval -> Ext -> Result pyval * Ext.

Lemma coerce_deadline_raises : forall d e,
  coerce_deadline d = Raise e -> e = ValueError.
Proof.
  intros d e. destruct d; simpl; try discriminate.
  destruct (float_of_str s); [discriminate | congruence].
Qed.

Lemma float_gt_raises : forall t d e, float_gt t d = Raise e -> e = TypeError.
Proof.
  intros t d e. destruct d; simpl; try discriminate; congruence.
Qed.

(** The deadline check on the intention at the head of the live list. *)
Lemma check_expired_head : forall t i extra results n sp b d out (x : Ext),
  check_expired t i results
    (mkWorld (mkAgent n sp b d (i :: extra)) out x) =
  if deadline_passed t (deadline i) then
    (Ok (Some (results ++ [("EXPIRED: " ++ py_str (action i))%string])),
     mkWorld (mkAgent n sp b d extra) out x)
  else (Ok None, mkWorld (mkAgent n sp b d (i :: extra)) out x).
Proof.
  intros t i extra results n sp b d out x.
  unfold check_expired, deadline_passed, try_except, bind, lift.
  destruct (coerce_deadline (deadline i)) as [c | e] eqn:Ec.
  - destruct (float_gt t c) as [[ | ] | e] eqn:Eg.
    + unfold remove_intention, bind, get_self. cbn [self intentions].
      rewrite list_remove_head. reflexivity.
    + reflexivity.
    + apply float_gt_raises in Eg. subst e. reflexivity.
  - apply coerce_deadline_raises in Ec. subst e. reflexivity.
Qed.

(** The loop of [execute_intentions], run on a prefix [l] of the live
    list, does what [executor_spec] says. *)
Lemma execute_loop_spec : forall t l extra results n sp b d out (x : Ext),
  execute_loop execute_action t l results
    (mkWorld (mkAgent n sp b d (l ++ extra)) out x) =
  let '(r, (l', x')) := executor_spec execute_action t l results x in
  (r, mkWorld (mkAgent n sp b d (l' ++ extra)) out x').
Proof.
  intros t l extra. induction l as [ | i rest IH];
    intros results n sp b d out x.
  - reflexivity.
  - cbn [execute_loop executor_spec app]. unfold expired, bind.
    destruct (truthy (deadline i)) eqn:Et; cbn [andb].
    + rewrite check_expired_head.
      destruct (deadline_passed t (deadline i)).
      * apply IH.
      * unfold on_env. cbn [env self stdout].
        destruct (execute_action (action i) (parameters i) x)
          as [[r | e] x']; [ | reflexivity].
        unfold remove_intention, bind, get_self. cbn [self intentions].
        rewrite list_remove_head. cbn. apply IH.
    + unfold ret at 1. unfold on_env. cbn [env self stdout].
      destruct (execute_action (action i) (parameters i) x)
        as [[r | e] x']; [ | reflexivity].
      unfold remove_intention, bind, get_self. cbn [self intentions].
      rewrite list_remove_head. cbn. apply IH.
Qed.

(** [execute_intentions] as a whole. *)
Lemma execute_intentions_spec : forall t (w : World Ext),
  execute_intentions execute_action t w =
  let '(r, (l', x')) :=
    executor_spec execute_action t (intentions (self w)) [] (env w) in
  (r, world_after w l' x').
Proof.
  intros t [[n sp b d l] out x]. unfold execute_intentions, bind, get_self.
  cbn [self intentions env].
  pose proof (execute_loop_spec t l [] [] n sp b d out x) as H.
  rewrite app_nil_r in H. rewrite H.
  destruct (executor_spec execute_action t l [] x) as [r [l' x']].
  rewrite app_nil_r. reflexivity.
Qed.

(** A walk that ends without an exception has consumed every intention
    and recorded one result for each. *)
Lemma executor_spec_ok : forall t l results x rs l' x',
  executor_spec execute_action t l results x = (Ok rs, (l', x')) ->
  l' = [] /\ List.length rs = List.length results + List.length l.
Proof.
  intros t l. induction l as [ | i rest IH]; intros results x rs l' x' H;
    cbn [executor_spec] in H.
  - inversion H; subst. split; [reflexivity | simpl; lia].
  - destruct (expired t i).
    + apply IH in H. destruct H as [-> H]. split; [reflexivity | ].
      rewrite H, length_app. simpl. lia.
    + destruct (execute_action (action i) (parameters i) x)
        as [[r | e] x1]; [ | discriminate].
      apply IH in H. destruct H as [-> H]. split; [reflexivity | ].
      rewrite H, length_app. simpl. lia.
Qed.

(** An exception of the walk is an exception of the action. *)
Lemma executor_spec_raise : forall t l results x e l' x',
  executor_spec execute_action t l results x = (Raise e, (l', x')) ->
  exists a p x0 x1, execute_action a p x0 = (Raise e, x1).
Proof.
  intros t l. induction l as [ | i rest IH]; intros results x e l' x' H;
    cbn [executor_spec] in H.
  - discriminate.
  - destruct (expired t i); [eapply IH; eassumption | ].
    destruct (execute_action (action i) (parameters i) x)
      as [[r | e0] x1] eqn:Ea.
    + eapply IH; eassumption.
    + inversion H; subst. eauto.
Qed.

(** The loop over a list is the loop over its first part, then over the
    rest. *)
Lemma execute_loop_app : forall t l1 l2 results (w : World Ext),
  execute_loop execute_action t (l1 ++ l2) results w =
  bind (execute_loop execute_action t l1 results)
       (execute_loop execute_action t l2) w.
Proof.
  intros t l1 l2. induction l1 as [ | i rest IH]; intros results w.
  - reflexivity.
  - cbn [app execute_loop]. unfold bind in *.
    destruct ((if truthy (deadline i)
               then check_expired t i results else ret None) w)
      as [[[results' | ] | e] w1]; [apply IH | | reflexivity].
    destruct (on_env (execute_action (action i) (parameters i)) w1)
      as [[r | e] w2]; [ | reflexivity].
    destruct (remove_intention i w2) as [[u | e] w3]; [apply IH | reflexivity].
Qed.

(** After the loop has consumed the first part [pre] of the live list
    without an exception the live list is what follows [pre]. *)
Lemma execute_loop_prefix : forall t pre extra results (w w1 : World Ext) rs,
  intentions (self w) = pre ++ extra ->
  execute_loop execute_action t pre results w = (Ok rs, w1) ->
  w1 = world_after w extra (env w1).
Proof.
  intros t pre extra results [[n sp b d l] out x] w1 rs Hl Hrun.
  cbn [self intentions] in Hl. subst l.
  rewrite execute_loop_spec in Hrun.
  destruct (executor_spec execute_action t pre results x)
    as [r [l' x']] eqn:Es.
  inversion Hrun; subst. apply executor_spec_ok in Es.
  destruct Es as [-> _]. reflexivity.
Qed.
End ExecutorFacts.

(** ** One turn of the executor's loop *)

Section ExecutorSteps.
Context {Ext : Type} {RT : Runtime}.
Variable execute_action : pyval -> pyval -> Ext -> Result pyval * Ext.

Lemma world_after_twice : forall (w : World Ext) l x l' x',
  world_after (world_after w l x) l' x' = world_after w l' x'.
Proof. reflexivity. Qed.

(** Once the loop has consumed [pre], the call goes on with the loop over
    the rest, in a world whose live list is that rest. *)
Lemma execute_intentions_at : forall t (w w1 : World Ext) pre rest rs,
  intentions (self w) = pre ++ rest ->
  execute_loop execute_action t pre [] w = (Ok rs, w1) ->
  execute_intentions execute_action t w =
    execute_loop execute_action t rest rs w1 /\
  w1 = world_after w rest (env w1).
Proof.
  intros t w w1 pre rest rs Hl Hpre. split.
  - unfold execute_intentions, bind, get_self. rewrite Hl.
    rewrite execute_loop_app. unfold bind. now rewrite Hpre.
  - eapply execute_loop_prefix; eassumption.
Qed.

Lemma step_expired : forall t (w : World Ext) i post rs x,
  expired t i = true ->
  execute_loop execute_action t (i :: post) rs (world_after w (i :: post) x) =
  execute_loop execute_action t post
    (rs ++ [("EXPIRED: " ++ py_str (action i))%string])
    (world_after w post x).
Proof.
  intros t w i post rs x He. unfold expired in He.
  apply andb_prop in He. destruct He as [Ht Hp].
  cbn [execute_loop]. unfold bind, world_after. rewrite Ht.
  rewrite check_expired_head, Hp. reflexivity.
Qed.

Lemma step_not_expired : forall t (w : World Ext) i post rs x,
  expired t i = false ->
  execute_loop execute_action t (i :: post) rs (world_after w (i :: post) x) =
  match execute_action (action i) (parameters i) x with
  | (Ok r, x') =>
      execute_loop execute_action t post
        (rs ++ [("EXECUTED: " ++ py_str (action i) ++
                 " -> " ++ py_str r)%string])
        (world_after w post x')
  | (Raise e, x') => (Raise e, world_after w (i :: post) x')
  end.
Proof.
  intros t w i post rs x He. unfold expired in He.
  cbn [execute_loop]. unfold bind, world_after.
  assert (Hcheck :
    (if truthy (deadline i) then check_expired t i rs else ret None)
      (mkWorld (mkAgent (name (self w)) (system_prompt (self w))
                  (beliefs (self w)) (desires (self w)) (i :: post))
               (stdout w) x) =
    (Ok None,
     mkWorld (mkAgent (name (self w)) (system_prompt (self w))
                (beliefs (self w)) (desires (self w)) (i :: post))
             (stdout w) x)).
  { destruct (truthy (deadline i)); [ | reflexivity].
    cbn [andb] in He. rewrite check_expired_head, He. reflexivity. }
  rewrite Hcheck. unfold on_env. cbn [env self stdout].
  destruct (execute_action (action i) (parameters i) x) as [[r | e] x'];
    [ | reflexivity].
  unfold remove_intention, bind, get_self. cbn [self intentions].
  rewrite list_remove_head. reflexivity.
Qed.

(** The default action returns its acknowledgment and touches nothing. *)
Lemma executor_spec_default : forall t l results (x : Ext),
  exists rs,
    executor_spec execute_action_default t l results x = (Ok rs, ([], x)) /\
    List.length rs = List.length results + List.length l.
Proof.
  intros t l. induction l as [ | i rest IH]; intros results x;
    cbn [executor_spec].
  - exists results. split; [reflexivity | simpl; lia].
  - destruct (expired t i); unfold execute_action_default.
    + destruct (IH (results ++ [("EXPIRED: " ++ py_str (action i))%string]) x)
        as [rs [H1 H2]].
      exists rs. split; [exact H1 | ].
      rewrite H2, length_app. simpl. lia.
    + match goal with
      | |- context [executor_spec _ _ rest ?r x] =>
          destruct (IH r x) as [rs [H1 H2]]
      end.
      exists rs. split; [exact H1 | ].
      rewrite H2, length_app. simpl. lia.
Qed.
End ExecutorSteps.

(** ** The Intention Executor *)

Section ExecutorClaims.
Context {Ext : Type} {RT : Runtime}.

(** A current time after the epoch is strictly after a deadline of zero,
    whether the zero is an [int] or a [float] of either sign. *)
Lemma zero_deadline_has_passed : forall t d,
  PrimFloat.ltb 0 t = true ->
  In d [PInt 0; PFloat 0; PFloat (-0)] ->
  deadline_passed t d = true.
Proof.
  intros t d Ht Hd. rewrite FloatAxioms.ltb_spec in Ht.
  change (Prim2SF 0) with (S754_zero false) in Ht.
  destruct Hd as [<- | [<- | [<- | []]]];
    unfold deadline_passed; cbn [coerce_deadline float_gt].
  - unfold float_gt_Z. unfold SFltb, SFcompare in Ht.
    destruct (Prim2SF t) as [s | s | | s m e]; try discriminate.
    + now destruct s.
    + destruct s; [discriminate | ]. cbv zeta.
      destruct (0 <=? e)%Z eqn:Ee; [ | reflexivity].
      apply Z.leb_le in Ee. apply Z.ltb_lt.
      apply Z.mul_pos_pos; [reflexivity | ].
      apply Z.pow_pos_nonneg; lia.
  - rewrite FloatAxioms.ltb_spec.
    change (Prim2SF 0) with (S754_zero false). exact Ht.
  - rewrite FloatAxioms.ltb_spec.
    change (Prim2SF (-0)) with (S754_zero true).
    unfold SFltb, SFcompare in *.
    destruct (Prim2SF t) as [s | s | | s m e]; auto.
Qed.

(** C6 (as amended).  In [execute_intentions], for every intention of the
    list whose deadline is true as a truth value (so not [None], and not
    zero or empty either), wherever it stands in the list:
    - a deadline given as a numeric string is converted with [float];
    - when the coerced deadline is strictly before the current time, the
      result [EXPIRED: <action>] is recorded and the intention is removed,
      and the action is not invoked (the environment of the actions is as
      the loop found it);
    - when the deadline cannot be coerced to a number (the conversion or
      the comparison fails) the intention is executed as one without a
      deadline: its action is invoked and [EXECUTED: <action> -> <result>]
      is recorded; no error arises from the deadline.
    [pre] is the part of the list the loop has consumed before it reaches
    the intention, [post] the part after it. *)
Theorem truthy_deadline_expiry :
  forall (execute_action : pyval -> pyval -> Ext -> Result pyval * Ext)
         (t : float) (w w1 : World Ext) (pre post : list Intention)
         (i : Intention) (rs : list string),
    intentions (self w) = pre ++ i :: post ->
    execute_loop execute_action t pre [] w = (Ok rs, w1) ->
    truthy (deadline i) = true ->
    (forall s f, float_of_str s = Some f ->
                 coerce_deadline (PStr s) = Ok (PFloat f)) /\
    (forall d,
       coerce_deadline (deadline i) = Ok d -> float_gt t d = Ok true ->
       execute_intentions execute_action t w =
       execute_loop execute_action t post
         (rs ++ [("EXPIRED: " ++ py_str (action i))%string])
         (world_after w1 post (env w1))) /\
    (forall r x',
       (exists e, coerce_deadline (deadline i) = Raise e) \/
       (exists d e, coerce_deadline (deadline i) = Ok d /\
                    float_gt t d = Raise e) ->
       execute_action (action i) (parameters i) (env w1) = (Ok r, x') ->
       execute_intentions execute_action t w =
       execute_loop execute_action t post
         (rs ++ [("EXECUTED: " ++ py_str (action i) ++
                  " -> " ++ py_str r)%string])
         (world_after w1 post x')).
Proof.
  intros execute_action t w w1 pre post i rs Hl Hpre Ht.
  destruct (execute_intentions_at execute_action t w w1 pre (i :: post) rs
              Hl Hpre) as [Hrun Hw1].
  split; [ | split].
  - intros s f Hf. cbn [coerce_deadline]. now rewrite Hf.
  - intros d Hc Hg. rewrite Hrun, Hw1.
    rewrite step_expired; [reflexivity | ].
    unfold expired, deadline_passed. now rewrite Ht, Hc, Hg.
  - intros r x' Hbad Hact. rewrite Hrun, Hw1.
    rewrite step_not_expired.
    + cbn [env world_after] in *. rewrite Hw1 in Hact.
      cbn [env world_after] in Hact. now rewrite Hact.
    + unfold expired, deadline_passed. rewrite Ht.
      destruct Hbad as [[e He] | [d [e [Hd He]]]].
      * now rewrite He.
      * now rewrite Hd, He.
Qed.

(** C10.  An intention whose deadline is the number 0 (as an [int] or as a
    [float]) or the empty string is treated as having no deadline,
    wherever it stands in the list: its action is invoked and
    [EXECUTED: <action> -> <result>] is recorded, although for every
    current time after the epoch a numeric deadline of zero has passed.
    The test for a deadline is the truth value of the field. *)
Theorem zero_deadline_is_executed :
  forall (execute_action : pyval -> pyval -> Ext -> Result pyval * Ext)
         (t : float) (w w1 : World Ext) (pre post : list Intention)
         (i : Intention) (rs : list string) (r : pyval) (x' : Ext),
    intentions (self w) = pre ++ i :: post ->
    execute_loop execute_action t pre [] w = (Ok rs, w1) ->
    In (deadline i) [PInt 0; PFloat 0; PFloat (-0); PStr EmptyString] ->
    execute_action (action i) (parameters i) (env w1) = (Ok r, x') ->
    truthy (deadline i) = false /\
    execute_intentions execute_action t w =
      execute_loop execute_action t post
        (rs ++ [("EXECUTED: " ++ py_str (action i) ++
                 " -> " ++ py_str r)%string])
        (world_after w1 post x') /\
    (PrimFloat.ltb 0 t = true ->
     deadline i <> PStr EmptyString ->
     deadline_passed t (deadline i) = true).
Proof.
  intros execute_action t w w1 pre post i rs r x' Hl Hpre Hd Hact.
  assert (Hfalse : truthy (deadline i) = false).
  { destruct Hd as [<- | [<- | [<- | [<- | []]]]]; reflexivity. }
  destruct (execute_intentions_at execute_action t w w1 pre (i :: post) rs
              Hl Hpre) as [Hrun Hw1].
  split; [exact Hfalse | split].
  - rewrite Hrun, Hw1. rewrite step_not_expired.
    + rewrite Hw1 in Hact. cbn [env world_after] in *. now rewrite Hact.
    + unfold expired. now rewrite Hfalse.
  - intros Ht Hne. apply zero_deadline_has_passed; [exact Ht | ].
    destruct Hd as [H | [H | [H | [H | []]]]]; rewrite <- H in *;
      simpl; auto; now elim Hne.
Qed.

(** C7.  [execute_intentions] consumes every intention exactly once.  With
    the default action, a list holding one intention without a deadline
    gives the one result [EXECUTED: <action> -> <acknowledgment>], where
    the acknowledgment is the string the default action returns, and
    leaves the list empty; a list of any content gives one result for each
    intention and leaves the list empty; and a second call right after
    finds nothing to act on and returns the empty list. *)
Theorem execute_intentions_consumes_once :
  forall (t t' : float) (w : World Ext),
    (forall a p,
       execute_intentions execute_action_default t
         (world_after w [mkIntention a p PNone] (env w)) =
       (Ok [("EXECUTED: " ++ py_str a ++ " -> " ++
             "Action '" ++ py_str a ++ "' with params " ++
             py_str p ++ " completed")%string],
        world_after w [] (env w))) /\
    (exists rs,
       execute_intentions execute_action_default t w =
         (Ok rs, world_after w [] (env w)) /\
       List.length rs = List.length (intentions (self w))) /\
    execute_intentions execute_action_default t' (world_after w [] (env w)) =
      (Ok [], world_after w [] (env w)).
Proof.
  intros t t' w. split; [ | split].
  - intros a p. rewrite execute_intentions_spec. reflexivity.
  - rewrite execute_intentions_spec.
    destruct (executor_spec_default t (intentions (self w)) [] (env w))
      as [rs [H1 H2]].
    exists rs. rewrite H1. split; [reflexivity | exact H2].
  - rewrite execute_intentions_spec. reflexivity.
Qed.

(** C8.  [execute_intentions] raises nothing of its own: with the default
    action it returns for every content of the intention list, and with
    any action an exception it raises is one the action raised.  An
    exception raised by a substituted action is not caught: it leaves
    [execute_intentions], with the intention still in the list, and it
    leaves [cycle]. *)
Theorem action_exception_propagates :
  (forall (t : float) (w : World Ext),
     exists rs w',
       execute_intentions execute_action_default t w = (Ok rs, w')) /\
  (forall (execute_action : pyval -> pyval -> Ext -> Result pyval * Ext)
          (t : float) (w : World Ext) (e : exn),
     fst (execute_intentions execute_action t w) = Raise e ->
     exists a p x x', execute_action a p x = (Raise e, x')) /\
  (forall (execute_action : pyval -> pyval -> Ext -> Result pyval * Ext)
          (t : float) (w w1 : World Ext) (pre post : list Intention)
          (i : Intention) (rs : list string) (e : exn) (x' : Ext),
     intentions (self w) = pre ++ i :: post ->
     execute_loop execute_action t pre [] w = (Ok rs, w1) ->
     expired t i = false ->
     execute_action (action i) (parameters i) (env w1) = (Raise e, x') ->
     execute_intentions execute_action t w =
       (Raise e, world_after w1 (i :: post) x')) /\
  (forall (execute_action : pyval -> pyval -> Ext -> Result pyval * Ext)
          (perception : string) (t : float) (w : World Ext) (e : exn),
     fst (execute_intentions execute_action t (snd (reason perception w))) =
       Raise e ->
     fst (cycle execute_action perception t w) = Raise e).
Proof.
  split; [ | split; [ | split]].
  - intros t w. rewrite execute_intentions_spec.
    destruct (executor_spec_default t (intentions (self w)) [] (env w))
      as [rs [H1 _]].
    rewrite H1. eauto.
  - intros execute_action t w e H. rewrite execute_intentions_spec in H.
    destruct (executor_spec execute_action t (intentions (self w)) [] (env w))
      as [r [l' x']] eqn:Es.
    cbn [fst] in H. subst r.
    eapply executor_spec_raise. eassumption.
  - intros execute_action t w w1 pre post i rs e x' Hl Hpre He Hact.
    destruct (execute_intentions_at execute_action t w w1 pre (i :: post) rs
                Hl Hpre) as [Hrun Hw1].
    rewrite Hrun, Hw1. rewrite step_not_expired; [ | exact He].
    rewrite Hw1 in Hact. cbn [env world_after] in *. now rewrite Hact.
  - intros execute_action perception t w e H.
    unfold cycle, bind.
    destruct (reason perception w) as [[formed | e0] w1] eqn:Er.
    + cbn [snd] in H.
      destruct (execute_intentions execute_action t w1) as [[rs | e1] w2];
        [discriminate | ].
      cbn [fst] in *. congruence.
    + exfalso. clear H. revert Er. unfold reason, bind, get_self, try_except.
      destruct (reason_try (_build_reasoning_prompt (self w) perception) w)
        as [[a | e1] w2]; [discriminate | ].
      unfold reason_except, bind, get_self.
      destruct (is_JSONDecodeError e1); discriminate.
Qed.
End ExecutorClaims.

(** ** The executor on concrete lists *)

(** C6, as stated, fails: an intention whose deadline is the timestamp 0.0
    has a deadline, the deadline is a number strictly before the current
    time 1.0, and yet the intention is executed, not recorded as
    expired. *)
Lemma zero_deadline_not_expired :
  deadline backup <> PNone /\
  coerce_deadline (RT:=test_rt) (deadline backup) = Ok (PFloat 0) /\
  float_gt 1 (PFloat 0) = Ok true /\
  execute_intentions (RT:=test_rt) (execute_action_default (RT:=test_rt))
    1 (test_world [backup]) =
  (Ok ["EXECUTED: backup -> Action 'backup' with params {} completed"],
   test_world []) /\
  fst (execute_intentions (RT:=test_rt)
         (execute_action_default (RT:=test_rt)) 1 (test_world [backup])) <>
  Ok ["EXPIRED: backup"].
Proof.
  repeat split; try reflexivity; discriminate.
Qed.

Lemma truthy_deadline_expiry_witness :
  execute_intentions (RT:=test_rt) test_action 10
    (test_world [greet; remind]) =
  (Ok ["EXECUTED: greet -> done"; "EXPIRED: remind"],
   mkWorld (test_agent []) [] 1).
Proof.
  destruct (truthy_deadline_expiry (RT:=test_rt) test_action 10
              (test_world [greet; remind])
              (mkWorld (test_agent [remind]) [] 1)
              [greet] [] remind ["EXECUTED: greet -> done"]
              eq_refl eq_refl eq_refl) as [_ [H _]].
  exact (H (PFloat 5) eq_refl eq_refl).
Defined.

Lemma zero_deadline_is_executed_witness :
  execute_intentions (RT:=test_rt) test_action 10
    (test_world [greet; backup]) =
  (Ok ["EXECUTED: greet -> done"; "EXECUTED: backup -> done"],
   mkWorld (test_agent []) [] 2) /\
  deadline_passed (RT:=test_rt) 10 (deadline backup) = true.
Proof.
  destruct (zero_deadline_is_executed (RT:=test_rt) test_action 10
              (test_world [greet; backup])
              (mkWorld (test_agent [backup]) [] 1)
              [greet] [] backup ["EXECUTED: greet -> done"] (PStr "done") 2
              eq_refl eq_refl (or_intror (or_introl eq_refl)) eq_refl)
    as [_ [H1 H2]].
  split; [exact H1 | ].
  apply H2; [reflexivity | discriminate].
Defined.

Lemma action_exception_propagates_witness :
  execute_intentions (RT:=test_rt) test_action 10
    (test_world [greet; explode; remind]) =
  (Raise (OtherException "RuntimeError"),
   mkWorld (test_agent [explode; remind]) [] 2).
Proof.
  destruct (@action_exception_propagates nat test_rt) as [_ [_ [H _]]].
  exact (H test_action 10%float (test_world [greet; explode; remind])
           (mkWorld (test_agent [explode; remind]) [] 1)
           [greet] [remind] explode ["EXECUTED: greet -> done"]
           (OtherException "RuntimeError") 2
           eq_refl eq_refl eq_refl eq_refl).
Defined.

(** ** The Reasoning Cycle *)

Section ReasonFacts.
Context {Ext : Type} {RT : Runtime}.

(** [reason] returns what its [try] block returns, and turns an exception
    of the block into a printed line and a new empty list. *)
Lemma reason_unfold : forall perception (w : World Ext),
  reason perception w =
  match reason_try (_build_reasoning_prompt (self w) perception) w with
  | (Ok r, w') => (Ok r, w')
  | (Raise e, w') =>
      (Ok (NewList []),
       mkWorld (self w') (stdout w' ++ [failure_line (self w') e]) (env w'))
  end.
Proof.
  intros perception w. unfold reason, bind, get_self, try_except.
  destruct (reason_try (_build_reasoning_prompt (self w) perception) w)
    as [[r | e] w']; [reflexivity | ].
  unfold reason_except, failure_line, bind, get_self, print, ret.
  destruct (is_JSONDecodeError e); reflexivity.
Qed.

(** When the call fails or the reply does not parse, the [try] block
    raises before it has touched the agent. *)
Lemma reason_try_no_reply : forall prompt (w : World Ext),
  (exists e, llm prompt = Raise e) \/
  (exists content e, llm prompt = Ok content /\ loads content = Raise e) ->
  exists e, reason_try prompt w = (Raise e, w).
Proof.
  intros prompt w H. unfold reason_try, bind, lift.
  destruct H as [[e He] | [content [e [Hc He]]]].
  - rewrite He. eauto.
  - rewrite Hc, He. eauto.
Qed.

(** [get] on a mapping never fails. *)
Lemma py_get_PDict : forall d k default,
  py_get (PDict d) k default =
  Ok (match dict_lookup d (PStr k) with Some x => x | None => default end).
Proof.
  intros d k default. unfold py_get. now destruct (dict_lookup d (PStr k)).
Qed.

(** An exception leaves the [try] block before the intention list is
    replaced. *)
Lemma reason_try_raise_intentions : forall prompt (w w1 : World Ext) e,
  reason_try prompt w = (Raise e, w1) ->
  intentions (self w1) = intentions (self w).
Proof.
  intros prompt w w1 e. unfold reason_try, bind, lift.
  destruct (llm prompt) as [content | e0]; [ | now inversion 1].
  destruct (loads content) as [result | e0]; [ | now inversion 1].
  destruct result as [ | | | | | | d]; try (cbn [py_get]; now inversion 1).
  rewrite !py_get_PDict.
  match goal with
  | |- context [_update_beliefs ?bu w] =>
      pose proof (_update_beliefs_preserves same_intentions
                    add_belief_same_intentions bu w) as Hu;
      destruct (_update_beliefs bu w) as [[u | e1] w2]
  end; [ | inversion 1; subst; exact Hu].
  match goal with
  | |- context [_create_intentions ?data w2] =>
      pose proof (_create_intentions_preserves same_intentions data w2) as Hc;
      destruct (_create_intentions data w2) as [[l | e2] w3]
  end; [discriminate | ].
  inversion 1; subst. unfold same_intentions in *. cbn [snd] in *. congruence.
Qed.
End ReasonFacts.

Section ReasonClaims.
Context {Ext : Type} {RT : Runtime}.

(** A world is its three components. *)
Lemma set_beliefs_same : forall (w : World Ext),
  snd (set_beliefs (beliefs (self w)) w) = w.
Proof. now intros [[n sp b d l] out x]. Qed.

Lemma update_belief_well_formed : forall u k bel (w : World Ext),
  belief_of_update u = Some (k, bel) ->
  update_belief u w =
  (Ok tt, snd (set_beliefs (dict_setitem (beliefs (self w)) k bel) w)).
Proof.
  intros u k bel w H. destruct u as [ | | | | | | d]; try discriminate.
  cbn [belief_of_update] in H.
  unfold update_belief, bind, lift, getitem. rewrite py_get_PDict.
  destruct (dict_lookup d (PStr "key")) as [k0 | ]; [ | discriminate].
  destruct (dict_lookup d (PStr "value")) as [v0 | ]; [ | discriminate].
  unfold add_belief, bind, get_self.
  destruct (hashable k0); [ | discriminate].
  inversion H; subst. reflexivity.
Qed.

Lemma update_belief_missing : forall u (w : World Ext),
  missing_key_or_value u = true ->
  exists e, update_belief u w = (Raise e, w).
Proof.
  intros u w H. destruct u as [ | | | | | | d]; try discriminate.
  cbn [missing_key_or_value] in H.
  unfold update_belief, bind, lift, getitem.
  destruct (dict_lookup d (PStr "key")) as [k0 | ]; [ | eauto].
  destruct (dict_lookup d (PStr "value")) as [v0 | ]; [discriminate | eauto].
Qed.

(** The loop of [_update_beliefs] applies well-formed entries in order and
    stops at the first entry without [key] or [value], keeping what it has
    applied. *)
Lemma for_each_update_stops : forall pre bad post (w : World Ext),
  forallb well_formed_update pre = true ->
  missing_key_or_value bad = true ->
  exists e,
    for_each (pre ++ bad :: post) update_belief w =
    (Raise e,
     snd (set_beliefs (apply_updates pre (beliefs (self w))) w)).
Proof.
  induction pre as [ | u rest IH]; intros bad post w Hpre Hbad.
  - cbn [app for_each apply_updates fold_left]. unfold bind.
    destruct (update_belief_missing bad w Hbad) as [e He].
    exists e. rewrite He, set_beliefs_same. reflexivity.
  - cbn [forallb] in Hpre. apply andb_prop in Hpre.
    destruct Hpre as [Hu Hrest]. unfold well_formed_update in Hu.
    destruct (belief_of_update u) as [[k bel] | ] eqn:Eu; [ | discriminate].
    cbn [app for_each apply_updates fold_left]. unfold bind.
    rewrite (update_belief_well_formed u k bel w Eu). rewrite Eu.
    destruct (IH bad post
                (snd (set_beliefs (dict_setitem (beliefs (self w)) k bel) w))
                Hrest Hbad) as [e He].
    exists e. rewrite He. reflexivity.
Qed.

(** Entries with a key that is not NaN are well formed. *)
Lemma keyed_updates_well_formed : forall us,
  forallb keyed_update us = true -> forallb well_formed_update us = true.
Proof.
  induction us as [ | u rest IH]; intros H; [reflexivity | ].
  cbn [forallb] in *. apply andb_prop in H. destruct H as [Hu Hrest].
  rewrite (IH Hrest), andb_true_r.
  unfold keyed_update in Hu. unfold well_formed_update.
  now destruct (belief_of_update u).
Qed.

(** C1.  When the reasoning service answers with the text
    [{"belief_updates": [{"key":"mood","value":"calm","confidence":0.6}],
      "new_intentions": [{"action":"rest"}], "reasoning":"ok"}],
    which [json.loads] reads as [example_reply], then after [reason] the
    belief map holds under the key [mood] the value [calm] with confidence
    0.6, and the stored intention list, which is also the list [reason]
    returns, is exactly one intention with action [rest], the empty
    mapping as parameters and no deadline. *)
Theorem reason_example_reply :
  forall (perception : string) (w : World Ext),
    llm (_build_reasoning_prompt (self w) perception) =
      Ok (Some example_reply_text) ->
    json_loads example_reply_text = Ok example_reply ->
    let w' := snd (reason perception w) in
    fst (reason perception w) = Ok StoredIntentions /\
    dict_lookup (beliefs (self w')) (PStr "mood") =
      Some (mkBelief (PStr "mood") (PStr "calm") (PFloat float_0_6)) /\
    intentions (self w') = [mkIntention (PStr "rest") (PDict []) PNone] /\
    deref StoredIntentions (self w') =
      [mkIntention (PStr "rest") (PDict []) PNone] /\
    stdout w' = stdout w ++ [("[" ++ name (self w) ++ "] Reasoning: ok")%string].
Proof.
  intros perception w Hllm Hjson.
  assert (Hrun :
    reason perception w =
    (Ok StoredIntentions,
     mkWorld
       (mkAgent (name (self w)) (system_prompt (self w))
          (dict_setitem (beliefs (self w)) (PStr "mood")
             (mkBelief (PStr "mood") (PStr "calm") (PFloat float_0_6)))
          (desires (self w))
          [mkIntention (PStr "rest") (PDict []) PNone])
       (stdout w ++ [("[" ++ name (self w) ++ "] Reasoning: ok")%string])
       (env w))).
  { rewrite reason_unfold. unfold reason_try, bind, lift.
    rewrite Hllm. cbn [loads]. rewrite Hjson. reflexivity. }
  rewrite Hrun. cbn [fst snd self beliefs intentions stdout deref].
  repeat split. apply dict_lookup_setitem_same.
Qed.

(** C2.  Whatever the agent holds, when the call of the reasoning service
    raises an error, or the reply is not parseable as JSON ([json.loads]
    raises on it), [reason] returns the empty list and does not raise, and
    the belief map and the desire list are exactly what they were. *)
Theorem reason_degrades_to_empty :
  forall (perception : string) (w : World Ext),
    let prompt := _build_reasoning_prompt (self w) perception in
    (exists e, llm prompt = Raise e) \/
    (exists content e, llm prompt = Ok content /\ loads content = Raise e) ->
    fst (reason perception w) = Ok (NewList []) /\
    beliefs (self (snd (reason perception w))) = beliefs (self w) /\
    desires (self (snd (reason perception w))) = desires (self w).
Proof.
  intros perception w prompt H.
  destruct (reason_try_no_reply prompt w H) as [e He].
  rewrite reason_unfold. fold prompt. rewrite He. repeat split.
Qed.

(** C3 (as amended).  Whatever the agent holds, when a malformed-response
    error occurs in [reason] (its [try] block raises), [reason] returns a
    new empty list, and the stored intention list is left exactly as it
    was, not cleared; the desires are untouched; and the beliefs are
    untouched when the error is that of the call or of parsing the
    reply. *)
Theorem reason_failure_keeps_intentions :
  forall (perception : string) (w w1 : World Ext) (e : exn),
    let prompt := _build_reasoning_prompt (self w) perception in
    reason_try prompt w = (Raise e, w1) ->
    fst (reason perception w) = Ok (NewList []) /\
    intentions (self (snd (reason perception w))) = intentions (self w) /\
    desires (self (snd (reason perception w))) = desires (self w) /\
    ((exists e', llm prompt = Raise e') \/
     (exists content e', llm prompt = Ok content /\
                         loads content = Raise e') ->
     beliefs (self (snd (reason perception w))) = beliefs (self w)).
Proof.
  intros perception w w1 e prompt Htry.
  pose proof (reason_try_raise_intentions prompt w w1 e Htry) as Hi.
  pose proof (reason_preserves same_desires print_same_desires
                set_intentions_same_desires add_belief_same_desires
                perception w) as Hd.
  split; [ | split; [ | split]].
  - rewrite reason_unfold. fold prompt. now rewrite Htry.
  - rewrite reason_unfold. fold prompt. now rewrite Htry.
  - exact Hd.
  - intros H. destruct (reason_try_no_reply prompt w H) as [e' He'].
    rewrite reason_unfold. fold prompt. rewrite He'. reflexivity.
Qed.

(** C4 (as amended).  When the reply parses to a mapping whose
    [belief_updates] list has its first malformed entry at index [i], an
    entry that is a mapping without [key] or without [value], every entry
    before it being a mapping with a [value] and a [key] that can be a
    dictionary key and is not NaN, then [reason] applies every entry before
    index [i] by [add_belief] and no entry at or after it, does not replace
    the intention list, and returns the empty list without raising.  [pre]
    holds the entries before index [i], [bad] is the entry at index [i],
    [post] holds those after it. *)
Theorem reason_stops_at_malformed_update :
  forall (perception content : string) (w : World Ext)
         (d : list (pyval * pyval)) (pre post : list pyval) (bad : pyval),
    llm (_build_reasoning_prompt (self w) perception) = Ok (Some content) ->
    json_loads content = Ok (PDict d) ->
    dict_lookup d (PStr "belief_updates") = Some (PList (pre ++ bad :: post)) ->
    forallb keyed_update pre = true ->
    missing_key_or_value bad = true ->
    fst (reason perception w) = Ok (NewList []) /\
    beliefs (self (snd (reason perception w))) =
      apply_updates pre (beliefs (self w)) /\
    intentions (self (snd (reason perception w))) = intentions (self w) /\
    desires (self (snd (reason perception w))) = desires (self w).
Proof.
  intros perception content w d pre post bad Hllm Hjson Hbu Hpre Hbad.
  apply keyed_updates_well_formed in Hpre.
  destruct (for_each_update_stops pre bad post w Hpre Hbad) as [e He].
  assert (Htry :
    reason_try (_build_reasoning_prompt (self w) perception) w =
    (Raise e, snd (set_beliefs (apply_updates pre (beliefs (self w))) w))).
  { unfold reason_try, bind, lift. rewrite Hllm. cbn [loads]. rewrite Hjson.
    rewrite py_get_PDict, Hbu. unfold _update_beliefs, bind, lift.
    cbn [py_iter]. now rewrite He. }
  rewrite reason_unfold, Htry. repeat split.
Qed.
End ReasonClaims.

(** ** The reasoning cycle on concrete replies *)

Lemma reason_example_reply_witness :
  fst (reason (RT:=test_rt) "hello" standing_world) = Ok StoredIntentions /\
  dict_lookup (beliefs (self (snd (reason (RT:=test_rt) "hello"
                                     standing_world)))) (PStr "mood") =
    Some (mkBelief (PStr "mood") (PStr "calm") (PFloat float_0_6)) /\
  intentions (self (snd (reason (RT:=test_rt) "hello" standing_world))) =
    [mkIntention (PStr "rest") (PDict []) PNone].
Proof.
  destruct (reason_example_reply (RT:=test_rt) "hello" standing_world
              eq_refl eq_refl) as [H1 [H2 [H3 _]]].
  exact (conj H1 (conj H2 H3)).
Defined.

Lemma reason_degrades_to_empty_witness :
  fst (reason (RT:=prose_rt) "hello" standing_world) = Ok (NewList []) /\
  beliefs (self (snd (reason (RT:=prose_rt) "hello" standing_world))) =
    beliefs (self standing_world) /\
  desires (self (snd (reason (RT:=prose_rt) "hello" standing_world))) =
    desires (self standing_world).
Proof.
  apply (reason_degrades_to_empty (RT:=prose_rt) "hello" standing_world).
  right.
  exists (Some "I would rather take a break now."%string), JSONDecodeError.
  split; reflexivity.
Defined.

(** C3, as stated, fails.  The reply is not parseable, [reason] returns
    the empty list, and the stored intention list still holds the
    intention it held before the call.  And for a reply whose second belief
    update has no [value], which does not have the expected shape either,
    the belief of the first update has been written. *)
Lemma reason_failure_does_not_clear :
  (json_loads (Runtime:=prose_rt) "I would rather take a break now." =
     Raise JSONDecodeError /\
   fst (reason (RT:=prose_rt) "hello" standing_world) = Ok (NewList []) /\
   intentions (self (snd (reason (RT:=prose_rt) "hello" standing_world))) =
     [greet] /\
   intentions (self (snd (reason (RT:=prose_rt) "hello" standing_world))) <>
     []) /\
  (fst (reason (RT:=partial_rt) "hello" standing_world) = Ok (NewList []) /\
   intentions (self (snd (reason (RT:=partial_rt) "hello" standing_world))) =
     [greet] /\
   dict_lookup (beliefs (self standing_world)) (PStr "mood") = None /\
   dict_lookup
     (beliefs (self (snd (reason (RT:=partial_rt) "hello" standing_world))))
     (PStr "mood") =
     Some (mkBelief (PStr "mood") (PStr "calm") (PFloat 1))).
Proof.
  repeat split; try reflexivity. discriminate.
Qed.

Lemma reason_failure_keeps_intentions_witness :
  fst (reason (RT:=prose_rt) "hello" standing_world) = Ok (NewList []) /\
  intentions (self (snd (reason (RT:=prose_rt) "hello" standing_world))) =
    intentions (self standing_world) /\
  desires (self (snd (reason (RT:=prose_rt) "hello" standing_world))) =
    desires (self standing_world).
Proof.
  destruct (reason_failure_keeps_intentions (RT:=prose_rt) "hello"
              standing_world standing_world JSONDecodeError eq_refl)
    as [H1 [H2 [H3 _]]].
  exact (conj H1 (conj H2 H3)).
Defined.

Lemma reason_stops_at_malformed_update_witness :
  fst (reason (RT:=partial_rt) "hello" standing_world) = Ok (NewList []) /\
  beliefs (self (snd (reason (RT:=partial_rt) "hello" standing_world))) =
    [(PStr "energy_level",
      mkBelief (PStr "energy_level") (PStr "high") (PFloat 0.5));
     (PStr "mood", mkBelief (PStr "mood") (PStr "calm") (PFloat 1))] /\
  intentions (self (snd (reason (RT:=partial_rt) "hello" standing_world))) =
    [greet].
Proof.
  destruct (reason_stops_at_malformed_update (RT:=partial_rt)
              "hello" partial_reply_text standing_world
              partial_reply_updates
              [PDict [(PStr "key", PStr "mood"); (PStr "value", PStr "calm")]]
              [] (PDict [(PStr "key", PStr "time")])
              eq_refl eq_refl eq_refl eq_refl eq_refl) as [H1 [H2 [H3 _]]].
  exact (conj H1 (conj H2 H3)).
Defined.

(** C4, as stated, fails.  The reply holds three belief updates; the one
    at index 2 is a mapping with a [key] and no [value], and the one at
    index 1, which is before it, is well formed.  The entry at index 0 has
    no [key], so the loop stops there: the entry at index 1 is not
    applied, the belief [mood] is not written, and the belief map is what
    it was. *)
Lemma reason_stops_before_earlier_malformed_update :
  json_loads (Runtime:=broken_rt) broken_reply_text =
    Ok (PDict [(PStr "belief_updates", PList broken_reply_updates)]) /\
  nth_error broken_reply_updates 2 = Some (PDict [(PStr "key", PStr "time")]) /\
  missing_key_or_value (PDict [(PStr "key", PStr "time")]) = true /\
  nth_error broken_reply_updates 1 =
    Some (PDict [(PStr "key", PStr "mood"); (PStr "value", PStr "calm")]) /\
  fst (reason (RT:=broken_rt) "hello" standing_world) = Ok (NewList []) /\
  dict_lookup
    (beliefs (self (snd (reason (RT:=broken_rt) "hello" standing_world))))
    (PStr "mood") = None /\
  beliefs (self (snd (reason (RT:=broken_rt) "hello" standing_world))) =
    beliefs (self standing_world) /\
  beliefs (self (snd (reason (RT:=broken_rt) "hello" standing_world))) <>
    apply_updates
      [PDict [(PStr "value", PStr "late")];
       PDict [(PStr "key", PStr "mood"); (PStr "value", PStr "calm")]]
      (beliefs (self standing_world)).
Proof.
  repeat split; try reflexivity. discriminate.
Qed.

(** ** The Agent State Container *)

Section ContainerClaims.
Context {Ext : Type} {RT : Runtime}.

Lemma add_belief_str : forall s v c (w : World Ext),
  add_belief (PStr s) v c w =
  (Ok tt,
   snd (set_beliefs
          (dict_setitem (beliefs (self w)) (PStr s) (mkBelief (PStr s) v c))
          w)).
Proof. reflexivity. Qed.

Lemma add_beliefs_returns : forall calls (w : World Ext),
  fst (add_beliefs calls w) = Ok tt.
Proof.
  induction calls as [ | [[k v] c] rest IH]; intros w; [reflexivity | ].
  cbn [add_beliefs]. unfold bind. rewrite add_belief_str. apply IH.
Qed.

Lemma add_beliefs_keeps_wf : forall calls,
  preserves (@keeps_wf Ext) (add_beliefs calls).
Proof.
  induction calls as [ | [[k v] c] rest IH]; cbn [add_beliefs]; frame.
Qed.

(** After the calls, an identifier that was written holds the arguments
    of its most recent call; any other identifier holds what it held. *)
Lemma add_beliefs_lookup : forall calls (w : World Ext) k,
  dict_lookup (beliefs (self (snd (add_beliefs calls w)))) (PStr k) =
  match last_call k calls with
  | Some (v, c) => Some (mkBelief (PStr k) v c)
  | None => dict_lookup (beliefs (self w)) (PStr k)
  end.
Proof.
  induction calls as [ | [[k0 v0] c0] rest IH]; intros w k; [reflexivity | ].
  cbn [add_beliefs last_call]. unfold bind. rewrite add_belief_str.
  rewrite IH. destruct (last_call k rest) as [[v c] | ]; [reflexivity | ].
  cbn [snd set_beliefs self beliefs].
  destruct (String.eqb k0 k) eqn:E.
  - apply String.eqb_eq in E. subst k0. apply dict_lookup_setitem_same.
  - apply dict_lookup_setitem_other.
    + exact E.
    + intros k' Hk'. apply key_eq_PStr in Hk'. subst k'. exact E.
Qed.

(** Every public operation keeps the belief map well formed. *)
Lemma run_op_keeps_wf :
  forall (execute_action : pyval -> pyval -> Ext -> Result pyval * Ext) o,
    preserves keeps_wf (run_op execute_action o).
Proof.
  intros execute_action [k v c | g p c | perception | t | perception t];
    cbn [run_op].
  - auto with frame.
  - auto with frame.
  - frame_bind; [ | frame].
    apply reason_preserves; auto with frame typeclass_instances.
  - frame_bind; [ | frame].
    apply execute_intentions_preserves; auto with frame typeclass_instances.
  - frame_bind; [ | frame].
    apply cycle_preserves; auto with frame typeclass_instances.
Qed.

Lemma run_ops_keeps_wf :
  forall (execute_action : pyval -> pyval -> Ext -> Result pyval * Ext)
         ops (w : World Ext),
    dict_wf (beliefs (self w)) ->
    dict_wf (beliefs (self (run_ops execute_action ops w))).
Proof.
  intros execute_action ops.
  induction ops as [ | o rest IH]; intros w Hwf; [exact Hwf | ].
  cbn [run_ops]. apply IH. now apply run_op_keeps_wf.
Qed.

(** C5.  For every sequence of [add_belief(k, v, c)] calls on identifiers
    [k], from any agent state: no call raises; the belief map holds exactly
    one belief for each identifier that was written, and its value and
    confidence are the arguments of the most recent call for that
    identifier.  No operation of the agent, in any sequence and with any
    action, ever leaves two beliefs under one identifier. *)
Theorem add_belief_one_per_key :
  forall (calls : list (string * pyval * pyval)) (w : World Ext),
    dict_wf (beliefs (self w)) ->
    let w' := snd (add_beliefs calls w) in
    fst (add_beliefs calls w) = Ok tt /\
    dict_wf (beliefs (self w')) /\
    (forall k v c,
       last_call k calls = Some (v, c) ->
       dict_lookup (beliefs (self w')) (PStr k) =
         Some (mkBelief (PStr k) v c) /\
       dict_count (beliefs (self w')) (PStr k) = 1) /\
    (forall (execute_action : pyval -> pyval -> Ext -> Result pyval * Ext)
            ops,
       dict_wf (beliefs (self (run_ops execute_action ops w)))).
Proof.
  intros calls w Hwf w'.
  assert (Hwf' : dict_wf (beliefs (self w'))).
  { now apply add_beliefs_keeps_wf. }
  split; [apply add_beliefs_returns | ].
  split; [exact Hwf' | ]. split.
  - intros k v c Hlast.
    assert (Hl : dict_lookup (beliefs (self w')) (PStr k) =
                 Some (mkBelief (PStr k) v c)).
    { unfold w'. rewrite add_beliefs_lookup, Hlast. reflexivity. }
    split; [exact Hl | ]. eapply dict_count_one; eassumption.
  - intros execute_action ops. now apply run_ops_keeps_wf.
Qed.

Lemma run_op_desires :
  forall (execute_action : pyval -> pyval -> Ext -> Result pyval * Ext)
         o (w : World Ext),
    desires (self (snd (run_op execute_action o w))) =
    desires (self w) ++ desires_added [o].
Proof.
  intros execute_action [k v c | g p c | perception | t | perception t] w;
    cbn [run_op desires_added]; rewrite ?app_nil_r.
  - apply add_belief_same_desires.
  - destruct c as [[ | kv d] | ]; reflexivity.
  - assert (H : preserves same_desires
                  (_ <- reason perception ;; ret (Ext:=Ext) tt)).
    { frame_bind; [ | frame].
      apply reason_preserves; auto with frame typeclass_instances. }
    apply H.
  - assert (H : preserves same_desires
                  (_ <- execute_intentions execute_action t ;;
                   ret (Ext:=Ext) tt)).
    { frame_bind; [ | frame].
      apply execute_intentions_preserves;
        auto with frame typeclass_instances. }
    apply H.
  - assert (H : preserves same_desires
                  (_ <- cycle execute_action perception t ;;
                   ret (Ext:=Ext) tt)).
    { frame_bind; [ | frame].
      apply cycle_preserves; auto with frame typeclass_instances. }
    apply H.
Qed.

Lemma desires_added_calls : forall calls,
  desires_added (map AddDesire_call calls) = map desire_of_call calls.
Proof.
  induction calls as [ | [[g p] c] rest IH]; [reflexivity | ].
  cbn [map AddDesire_call desires_added]. now rewrite IH.
Qed.

(** C9.  [add_desire] is strictly additive.  From any agent state, a
    sequence of N [add_desire] calls leaves the desire list N entries
    longer, the new entries holding the goal, priority and context of
    their calls in call order, an omitted context being a new empty
    mapping.  No operation of the agent removes a desire: after any
    sequence of operations, with any action, the desire list is the
    initial list followed by the desires of the [add_desire] calls. *)
Theorem add_desire_strictly_additive :
  forall (execute_action : pyval -> pyval -> Ext -> Result pyval * Ext)
         (w : World Ext),
    (forall calls,
       desires (self (run_ops execute_action (map AddDesire_call calls) w)) =
         desires (self w) ++ map desire_of_call calls /\
       List.length
         (desires (self (run_ops execute_action
                           (map AddDesire_call calls) w))) =
         List.length (desires (self w)) + List.length calls) /\
    (forall ops,
       desires (self (run_ops execute_action ops w)) =
         desires (self w) ++ desires_added ops).
Proof.
  intros execute_action w.
  assert (Hops : forall ops (w0 : World Ext),
            desires (self (run_ops execute_action ops w0)) =
            desires (self w0) ++ desires_added ops).
  { induction ops as [ | o rest IH]; intros w0.
    - cbn. now rewrite app_nil_r.
    - cbn [run_ops]. rewrite IH, run_op_desires, <- app_assoc.
      f_equal. now destruct o. }
  split; [ | intros ops; apply Hops].
  intros calls. rewrite Hops, desires_added_calls. split; [reflexivity | ].
  now rewrite length_app, length_map.
Qed.
End ContainerClaims.

(** ** The container on a concrete sequence of calls *)

Lemma add_belief_one_per_key_witness :
  dict_lookup
    (beliefs (self (snd (add_beliefs
       [("current_time", PStr "09:00", PFloat 0.5);
        ("energy_level", PStr "low", PFloat 1);
        ("current_time", PStr "10:00", PFloat 1)] standing_world))))
    (PStr "current_time") =
    Some (mkBelief (PStr "current_time") (PStr "10:00") (PFloat 1)) /\
  dict_count
    (beliefs (self (snd (add_beliefs
       [("current_time", PStr "09:00", PFloat 0.5);
        ("energy_level", PStr "low", PFloat 1);
        ("current_time", PStr "10:00", PFloat 1)] standing_world))))
    (PStr "current_time") = 1.
Proof.
  refine (proj1 (proj2 (proj2
            (add_belief_one_per_key (RT:=test_rt)
               [("current_time"%string, PStr "09:00", PFloat 0.5);
                ("energy_level"%string, PStr "low", PFloat 1);
                ("current_time"%string, PStr "10:00", PFloat 1)]
               standing_world _)))
            "current_time"%string (PStr "10:00") (PFloat 1) eq_refl).
  repeat constructor.
Defined.

(** ** A whole cycle on the example reply *)

(** [cycle] forms one intention and executes it.  The list [reason]
    returned is the list [execute_intentions] has emptied in place, so its
    length in the summary is taken after the intention was consumed. *)
Example cycle_example_reply :
  cycle (RT:=test_rt) test_action "hello" 10 standing_world =
  (Ok {| intentions_formed := 0;
         actions_executed := ["EXECUTED: rest -> done"];
         current_beliefs := [PStr "energy_level"; PStr "mood"];
         active_desires := 1 |},
   mkWorld
     (mkAgent "TaskBot" "You are a helpful task management agent."
        [(PStr "energy_level",
          mkBelief (PStr "energy_level") (PStr "high") (PFloat 0.5));
         (PStr "mood",
          mkBelief (PStr "mood") (PStr "calm") (PFloat float_0_6))]
        [mkDesire (PStr "take_break") (PInt 2) (PDict [])]
        [])
     ["[TaskBot] Reasoning: ok"] 1).
Proof. reflexivity. Qed.

(** * Further properties *)

(** ** Replies of any content *)

Section ReplyFacts.
Context {Ext : Type} {RT : Runtime}.

(** The loop of [_update_beliefs] on well-formed entries applies them all,
    in order. *)
Lemma for_each_update_ok : forall us (w : World Ext),
  forallb well_formed_update us = true ->
  for_each us update_belief w =
  (Ok tt, snd (set_beliefs (apply_updates us (beliefs (self w))) w)).
Proof.
  induction us as [ | u rest IH]; intros w Hus.
  - cbn [for_each apply_updates fold_left]. now rewrite set_beliefs_same.
  - cbn [forallb] in Hus. apply andb_prop in Hus. destruct Hus as [Hu Hrest].
    unfold well_formed_update in Hu.
    destruct (belief_of_update u) as [[k bel] | ] eqn:Eu; [ | discriminate].
    cbn [for_each apply_updates fold_left]. unfold bind.
    rewrite (update_belief_well_formed u k bel w Eu), Eu.
    rewrite IH by exact Hrest. reflexivity.
Qed.

(** The loop of [_create_intentions] on entries that all have an [action]
    appends their intentions, in order, and touches nothing. *)
Lemma create_intentions_loop_ok : forall es l acc (w : World Ext),
  intentions_of_entries es = Some l ->
  create_intentions_loop es acc w = (Ok (acc ++ l), w).
Proof.
  induction es as [ | u rest IH]; intros l acc w H.
  - inversion H; subst. cbn. now rewrite app_nil_r.
  - cbn [intentions_of_entries] in H.
    destruct (intention_of_entry u) as [i | ] eqn:Eu; [ | discriminate].
    destruct (intentions_of_entries rest) as [l' | ] eqn:Er; [ | discriminate].
    inversion H; subst.
    destruct u as [ | | | | | | d]; try discriminate.
    cbn [intention_of_entry] in Eu.
    cbn [create_intentions_loop]. unfold bind, lift, getitem.
    rewrite !py_get_PDict.
    destruct (dict_lookup d (PStr "action")) as [a | ]; [ | discriminate].
    inversion Eu; subst. unfold field_or.
    rewrite (IH l' _ w eq_refl), <- app_assoc. reflexivity.
Qed.

(** The loop stops at the first entry without an [action]; nothing is
    returned, and nothing was touched. *)
Lemma create_intentions_loop_stops : forall pre bad post l acc (w : World Ext),
  intentions_of_entries pre = Some l ->
  intention_of_entry bad = None ->
  exists e, create_intentions_loop (pre ++ bad :: post) acc w = (Raise e, w).
Proof.
  induction pre as [ | u rest IH]; intros bad post l acc w Hpre Hbad.
  - cbn [app create_intentions_loop]. unfold bind, lift, getitem.
    destruct bad as [ | | | | | | d]; eauto.
    cbn [intention_of_entry] in Hbad.
    destruct (dict_lookup d (PStr "action")); [discriminate | eauto].
  - cbn [intentions_of_entries] in Hpre.
    destruct (intention_of_entry u) as [i | ] eqn:Eu; [ | discriminate].
    destruct (intentions_of_entries rest) as [l' | ] eqn:Er; [ | discriminate].
    destruct u as [ | | | | | | d]; try discriminate.
    cbn [intention_of_entry] in Eu.
    cbn [app create_intentions_loop]. unfold bind, lift, getitem.
    rewrite !py_get_PDict.
    destruct (dict_lookup d (PStr "action")) as [a | ]; [ | discriminate].
    eapply IH; eauto.
Qed.

(** The [try] block of [reason] up to the belief updates, for a reply that
    parses to a mapping whose updates are well formed. *)
Lemma reason_try_after_updates :
  forall prompt content d us (w : World Ext),
    llm prompt = Ok (Some content) ->
    json_loads content = Ok (PDict d) ->
    field_or d "belief_updates" (PList []) = PList us ->
    forallb well_formed_update us = true ->
    reason_try prompt w =
    (new_intentions <-
       _create_intentions (field_or d "new_intentions" (PList [])) ;;
     set_intentions new_intentions ;;
     _log_reasoning (field_or d "reasoning" (PStr "No explanation provided")) ;;
     ret StoredIntentions)
      (snd (set_beliefs (apply_updates us (beliefs (self w))) w)).
Proof.
  intros prompt content d us w Hllm Hjson Hus Hwf.
  unfold field_or in *. unfold reason_try, bind, lift.
  rewrite Hllm. cbn [loads]. rewrite Hjson. rewrite !py_get_PDict, Hus.
  unfold _update_beliefs, bind, lift. cbn [py_iter].
  rewrite for_each_update_ok by exact Hwf. reflexivity.
Qed.
End ReplyFacts.

Section ReplyProperties.
Context {Ext : Type} {RT : Runtime}.

(** An entry that is not well formed stops [update_belief] before it has
    written anything. *)
Lemma update_belief_malformed : forall u (w : World Ext),
  belief_of_update u = None ->
  exists e, update_belief u w = (Raise e, w).
Proof.
  intros u w H. unfold update_belief, bind, lift, getitem.
  destruct u as [ | | | | | | d]; eauto.
  cbn [belief_of_update] in H. rewrite py_get_PDict.
  destruct (dict_lookup d (PStr "key")) as [k | ]; [ | eauto].
  destruct (dict_lookup d (PStr "value")) as [v | ]; [ | eauto].
  unfold add_belief, bind, get_self, raise.
  destruct (hashable k); [discriminate | eauto].
Qed.

(** X1.  A reply that parses to a mapping whose belief updates are all well
    formed, with keys other than NaN, and whose intention entries all have
    an [action] is applied in full: the updates are written in order, the
    intention list is replaced by the intentions of the entries, whatever
    it held, the reasoning text (or the placeholder, when the reply has
    none) is printed, and the stored list is returned.  A field the reply
    does not have counts as an empty list. *)
Theorem reason_well_formed_reply :
  forall (perception content : string) (d : list (pyval * pyval))
         (us es : list pyval) (l : list Intention) (w : World Ext),
    llm (_build_reasoning_prompt (self w) perception) = Ok (Some content) ->
    json_loads content = Ok (PDict d) ->
    field_or d "belief_updates" (PList []) = PList us ->
    forallb keyed_update us = true ->
    field_or d "new_intentions" (PList []) = PList es ->
    intentions_of_entries es = Some l ->
    reason perception w =
    (Ok StoredIntentions,
     mkWorld
       (mkAgent (name (self w)) (system_prompt (self w))
          (apply_updates us (beliefs (self w))) (desires (self w)) l)
       (stdout w ++
        [("[" ++ name (self w) ++ "] Reasoning: " ++
          py_str (field_or d "reasoning" (PStr "No explanation provided")))
         %string])
       (env w)) /\
    List.length l = List.length es.
Proof.
  intros perception content d us es l w Hllm Hjson Hus Hwf Hes Hl.
  apply keyed_updates_well_formed in Hwf. split.
  - rewrite reason_unfold.
    rewrite (reason_try_after_updates _ content d us w Hllm Hjson Hus Hwf).
    unfold bind, _create_intentions, lift. rewrite Hes. cbn [py_iter].
    unfold bind. rewrite (create_intentions_loop_ok es l [] _ Hl).
    reflexivity.
  - clear - Hl. revert l Hl.
    induction es as [ | u rest IH]; intros l Hl; cbn in Hl.
    + now inversion Hl.
    + destruct (intention_of_entry u); [ | discriminate].
      destruct (intentions_of_entries rest) as [l' | ]; [ | discriminate].
      inversion Hl; subst. cbn. f_equal. now apply IH.
Qed.

(** X2.  A reply that parses to something other than a mapping (a list, a
    string, a number, a boolean, [null]) is an error [reason] recovers
    from: it prints the error, returns a new empty list and leaves the
    agent exactly as it was. *)
Theorem reason_non_object_reply :
  forall (perception content : string) (v : pyval) (w : World Ext),
    llm (_build_reasoning_prompt (self w) perception) = Ok (Some content) ->
    json_loads content = Ok v ->
    (forall d, v <> PDict d) ->
    reason perception w =
    (Ok (NewList []),
     mkWorld (self w)
       (stdout w ++
        [("[" ++ name (self w) ++ "] Error in reasoning: " ++
          exn_str AttributeError)%string])
       (env w)).
Proof.
  intros perception content v w Hllm Hjson Hv.
  rewrite reason_unfold. unfold reason_try, bind, lift.
  rewrite Hllm. cbn [loads]. rewrite Hjson.
  destruct v as [ | | | | | | d]; try reflexivity.
  now elim (Hv d).
Qed.

(** X3.  The belief updates are not rolled back when the intentions are
    malformed.  When every belief update is well formed, with a key other
    than NaN, and the list of
    intention entries has an entry without [action], [reason] returns the
    empty list, the belief map holds every update, and the intention list
    is what it was: none of the entries is stored, not even those before
    the malformed one. *)
Theorem reason_malformed_intention_keeps_updates :
  forall (perception content : string) (d : list (pyval * pyval))
         (us pre post : list pyval) (bad : pyval) (l : list Intention)
         (w : World Ext),
    llm (_build_reasoning_prompt (self w) perception) = Ok (Some content) ->
    json_loads content = Ok (PDict d) ->
    field_or d "belief_updates" (PList []) = PList us ->
    forallb keyed_update us = true ->
    field_or d "new_intentions" (PList []) = PList (pre ++ bad :: post) ->
    intentions_of_entries pre = Some l ->
    intention_of_entry bad = None ->
    fst (reason perception w) = Ok (NewList []) /\
    beliefs (self (snd (reason perception w))) =
      apply_updates us (beliefs (self w)) /\
    intentions (self (snd (reason perception w))) = intentions (self w) /\
    desires (self (snd (reason perception w))) = desires (self w).
Proof.
  intros perception content d us pre post bad l w
         Hllm Hjson Hus Hwf Hes Hpre Hbad.
  apply keyed_updates_well_formed in Hwf.
  rewrite reason_unfold.
  rewrite (reason_try_after_updates _ content d us w Hllm Hjson Hus Hwf).
  unfold bind, _create_intentions, lift. rewrite Hes. cbn [py_iter].
  unfold bind.
  destruct (create_intentions_loop_stops pre bad post l []
              (snd (set_beliefs (apply_updates us (beliefs (self w))) w))
              Hpre Hbad) as [e He].
  rewrite He. repeat split.
Qed.

(** X4.  The belief updates stop at the first entry that is not well
    formed, whatever is wrong with it: not a mapping, no [key], no [value],
    or a [key] that cannot be a dictionary key (a list or a mapping).  The
    entries before it, well formed and with keys other than NaN, stay
    applied, the intention list is not replaced and [reason] returns the
    empty list. *)
Theorem reason_stops_at_any_malformed_update :
  forall (perception content : string) (d : list (pyval * pyval))
         (pre post : list pyval) (bad : pyval) (w : World Ext),
    llm (_build_reasoning_prompt (self w) perception) = Ok (Some content) ->
    json_loads content = Ok (PDict d) ->
    field_or d "belief_updates" (PList []) = PList (pre ++ bad :: post) ->
    forallb keyed_update pre = true ->
    well_formed_update bad = false ->
    fst (reason perception w) = Ok (NewList []) /\
    beliefs (self (snd (reason perception w))) =
      apply_updates pre (beliefs (self w)) /\
    intentions (self (snd (reason perception w))) = intentions (self w) /\
    desires (self (snd (reason perception w))) = desires (self w).
Proof.
  intros perception content d pre post bad w Hllm Hjson Hus Hpre Hbad.
  apply keyed_updates_well_formed in Hpre.
  assert (Hloop : exists e,
    for_each (pre ++ bad :: post) update_belief w =
    (Raise e, snd (set_beliefs (apply_updates pre (beliefs (self w))) w))).
  { clear - Hpre Hbad. revert w.
    induction pre as [ | u rest IH]; intros w.
    - cbn [app for_each apply_updates fold_left]. unfold bind.
      unfold well_formed_update in Hbad.
      destruct (belief_of_update bad) eqn:Eb; [discriminate | ].
      destruct (update_belief_malformed bad w Eb) as [e He].
      exists e. now rewrite He, set_beliefs_same.
    - cbn [forallb] in Hpre. apply andb_prop in Hpre.
      destruct Hpre as [Hu Hrest]. unfold well_formed_update in Hu.
      destruct (belief_of_update u) as [[k bel] | ] eqn:Eu; [ | discriminate].
      cbn [app for_each apply_updates fold_left]. unfold bind.
      rewrite (update_belief_well_formed u k bel w Eu), Eu.
      destruct (IH Hrest
                  (snd (set_beliefs (dict_setitem (beliefs (self w)) k bel)
                          w))) as [e He].
      exists e. now rewrite He. }
  destruct Hloop as [e He].
  assert (Htry :
    reason_try (_build_reasoning_prompt (self w) perception) w =
    (Raise e, snd (set_beliefs (apply_updates pre (beliefs (self w))) w))).
  { unfold field_or in Hus. unfold reason_try, bind, lift.
    rewrite Hllm. cbn [loads]. rewrite Hjson.
    rewrite py_get_PDict, Hus. unfold _update_beliefs, bind, lift.
    cbn [py_iter]. now rewrite He. }
  rewrite reason_unfold, Htry. repeat split.
Qed.

(** X5.  When [belief_updates] is not a list (it is [null], a boolean, a
    number, or a string that is not empty), [reason] returns the empty list
    and the agent is exactly as it was: no belief is written and the
    intention list is not replaced. *)
Theorem reason_belief_updates_not_a_list :
  forall (perception content : string) (d : list (pyval * pyval))
         (v : pyval) (w : World Ext),
    llm (_build_reasoning_prompt (self w) perception) = Ok (Some content) ->
    json_loads content = Ok (PDict d) ->
    dict_lookup d (PStr "belief_updates") = Some v ->
    not_a_list_of_updates v = true ->
    fst (reason perception w) = Ok (NewList []) /\
    self (snd (reason perception w)) = self w.
Proof.
  intros perception content d v w Hllm Hjson Hv Hbad.
  assert (Hu : exists e, _update_beliefs v w = (Raise e, w)).
  { unfold _update_beliefs, bind, lift.
    destruct v as [ | b | z | f | s | l | d']; cbn [py_iter];
      try discriminate; eauto.
    destruct s as [ | c r]; [discriminate | ].
    cbn [chars for_each]. unfold bind, update_belief, bind, lift.
    cbn [getitem]. eauto. }
  destruct Hu as [e He].
  rewrite reason_unfold. unfold reason_try, bind, lift.
  rewrite Hllm. cbn [loads]. rewrite Hjson, py_get_PDict, Hv, He.
  split; reflexivity.
Qed.

(** [_update_beliefs] on entries with string identifiers is the sequence
    of [add_belief] calls the entries stand for. *)
Lemma update_beliefs_calls :
  forall (us : list pyval) (calls : list (string * pyval * pyval))
         (w : World Ext),
    calls_of_updates us = Some calls ->
    _update_beliefs (PList us) w = add_beliefs calls w /\
    List.length calls = List.length us.
Proof.
  intros us calls w H. unfold _update_beliefs, bind, lift. cbn [py_iter].
  revert calls w H.
  induction us as [ | u rest IH]; intros calls w H; cbn in H.
  - inversion H; subst. split; reflexivity.
  - destruct (call_of_update u) as [[[k v] c] | ] eqn:Eu; [ | discriminate].
    destruct (calls_of_updates rest) as [calls' | ] eqn:Er; [ | discriminate].
    inversion H; subst. unfold call_of_update in Eu.
    destruct (belief_of_update u) as [[k0 bel] | ] eqn:Eb; [ | discriminate].
    destruct k0 as [ | | | | s | | ]; try discriminate.
    inversion Eu; subst.
    assert (Hbel : bel = mkBelief (PStr k) (value bel) (confidence bel)).
    { clear - Eb. destruct u as [ | | | | | | d]; try discriminate.
      cbn [belief_of_update] in Eb.
      destruct (dict_lookup d (PStr "key")) as [k0 | ]; [ | discriminate].
      destruct (dict_lookup d (PStr "value")) as [v0 | ]; [ | discriminate].
      destruct (hashable k0); [ | discriminate].
      inversion Eb; subst. reflexivity. }
    cbn [for_each add_beliefs List.length]. unfold bind.
    rewrite (update_belief_well_formed u (PStr k) bel w Eb).
    rewrite add_belief_str, <- Hbel.
    destruct (IH calls' (snd (set_beliefs
                (dict_setitem (beliefs (self w)) (PStr k) bel) w)) eq_refl)
      as [H1 H2].
    split; [exact H1 | now rewrite H2].
Qed.

(** X6.  Within one reply the last update of an identifier wins.
    [_update_beliefs] on entries with string identifiers does not raise;
    afterwards the belief under an identifier the entries mention holds the
    value and the confidence of the last entry for it, the confidence
    being 1.0 when that entry has none and the value given, [null]
    included, when it has one; the belief under any other identifier is
    what it was. *)
Theorem update_beliefs_last_entry_wins :
  forall (us : list pyval) (calls : list (string * pyval * pyval))
         (w : World Ext),
    calls_of_updates us = Some calls ->
    fst (_update_beliefs (PList us) w) = Ok tt /\
    forall k,
      dict_lookup (beliefs (self (snd (_update_beliefs (PList us) w))))
        (PStr k) =
      match last_call k calls with
      | Some (v, c) => Some (mkBelief (PStr k) v c)
      | None => dict_lookup (beliefs (self w)) (PStr k)
      end.
Proof.
  intros us calls w H.
  destruct (update_beliefs_calls us calls w H) as [Hrun _].
  rewrite Hrun. split; [apply add_beliefs_returns | ].
  intros k. apply add_beliefs_lookup.
Qed.

(** X7.  [add_belief] on a string identifier keeps the order of the
    identifiers: an identifier the agent already holds stays where it is,
    a new one goes to the end.  The belief under any other key is what it
    was. *)
Theorem add_belief_keeps_order :
  forall (k : string) (v c : pyval) (w : World Ext),
    let w' := snd (add_belief (PStr k) v c w) in
    dict_keys (beliefs (self w')) =
      (match dict_lookup (beliefs (self w)) (PStr k) with
       | Some _ => dict_keys (beliefs (self w))
       | None => dict_keys (beliefs (self w)) ++ [PStr k]
       end) /\
    (forall k', key_eq (PStr k) k' = false ->
                dict_lookup (beliefs (self w')) k' =
                dict_lookup (beliefs (self w)) k').
Proof.
  intros k v c w w'. unfold w'. rewrite add_belief_str.
  cbn [snd set_beliefs self beliefs]. split.
  - apply dict_keys_setitem.
  - intros k' Hk'. apply dict_lookup_setitem_other; [exact Hk' | ].
    intros k0 Hk0. apply key_eq_PStr in Hk0. now subst k0.
Qed.
End ReplyProperties.

(** ** More on the executor *)

Section ExecutorProperties.
Context {Ext : Type} {RT : Runtime}.

(** What the walk leaves in the list is the end of the list. *)
Lemma executor_spec_suffix :
  forall (execute_action : pyval -> pyval -> Ext -> Result pyval * Ext)
         t l results x r l' x',
    executor_spec execute_action t l results x = (r, (l', x')) ->
    exists consumed, l = consumed ++ l'.
Proof.
  intros execute_action t l.
  induction l as [ | i rest IH]; intros results x r l' x' H;
    cbn [executor_spec] in H.
  - inversion H; subst. now exists [].
  - destruct (expired t i).
    + apply IH in H. destruct H as [c ->]. now exists (i :: c).
    + destruct (execute_action (action i) (parameters i) x)
        as [[r0 | e] x1].
      * apply IH in H. destruct H as [c ->]. now exists (i :: c).
      * inversion H; subst. now exists [].
Qed.

(** With an action that always returns, the walk records one line for
    each intention, in list order. *)
Lemma executor_spec_lines :
  forall (execute_action : pyval -> pyval -> Ext -> Result pyval * Ext),
    (forall a p x, exists r x', execute_action a p x = (Ok r, x')) ->
    forall t l results x,
    exists rs x',
      executor_spec execute_action t l results x =
        (Ok (results ++ rs), ([], x')) /\
      Forall2 (result_line t) l rs.
Proof.
  intros execute_action Htotal t l.
  induction l as [ | i rest IH]; intros results x; cbn [executor_spec].
  - exists [], x. rewrite app_nil_r. split; [reflexivity | constructor].
  - destruct (expired t i) eqn:Ee.
    + destruct (IH (results ++ [("EXPIRED: " ++ py_str (action i))%string]) x)
        as [rs [x' [H1 H2]]].
      exists (("EXPIRED: " ++ py_str (action i))%string :: rs), x'.
      rewrite H1, <- app_assoc. split; [reflexivity | ].
      constructor; [ | exact H2]. unfold result_line. now rewrite Ee.
    + destruct (Htotal (action i) (parameters i) x) as [r [x1 Ha]].
      rewrite Ha.
      destruct (IH (results ++ [("EXECUTED: " ++ py_str (action i) ++
                                 " -> " ++ py_str r)%string]) x1)
        as [rs [x' [H1 H2]]].
      exists (("EXECUTED: " ++ py_str (action i) ++ " -> " ++ py_str r)%string
              :: rs), x'.
      rewrite H1, <- app_assoc. split; [reflexivity | ].
      constructor; [ | exact H2]. unfold result_line. rewrite Ee. eauto.
Qed.

(** The default action always returns. *)
Lemma execute_intentions_default_lines : forall t (w : World Ext),
  exists rs x',
    execute_intentions execute_action_default t w =
      (Ok rs, world_after w [] x') /\
    Forall2 (result_line t) (intentions (self w)) rs.
Proof.
  intros t w. rewrite execute_intentions_spec.
  destruct (executor_spec_lines execute_action_default
              (fun a p x => ex_intro _ _ (ex_intro _ x eq_refl))
              t (intentions (self w)) [] (env w)) as [rs [x' [H1 H2]]].
  exists rs, x'. rewrite H1. split; [reflexivity | exact H2].
Qed.

(** An action that leaves the agent alone is a function of the
    environment, and the loop for the method is the loop for the
    function. *)
Lemma execute_loop_with_on_env :
  forall (act : pyval -> pyval -> M Ext pyval)
         (execute_action : pyval -> pyval -> Ext -> Result pyval * Ext),
    (forall a p w, act a p w = on_env (execute_action a p) w) ->
    forall t l results w,
      execute_loop_with act t l results w =
      execute_loop execute_action t l results w.
Proof.
  intros act execute_action Hact t l.
  induction l as [ | i rest IH]; intros results w; [reflexivity | ].
  cbn [execute_loop_with execute_loop]. unfold bind.
  destruct ((if truthy (deadline i)
             then check_expired t i results else ret None) w)
    as [[[results' | ] | e] w1]; [apply IH | | reflexivity].
  rewrite Hact.
  destruct (on_env (execute_action (action i) (parameters i)) w1)
    as [[r | e] w2]; [ | reflexivity].
  destruct (remove_intention i w2) as [[u | e] w3]; [apply IH | reflexivity].
Qed.

Lemma execute_intentions_with_on_env :
  forall (act : pyval -> pyval -> M Ext pyval)
         (execute_action : pyval -> pyval -> Ext -> Result pyval * Ext),
    (forall a p w, act a p w = on_env (execute_action a p) w) ->
    forall t w,
      execute_intentions_with act t w = execute_intentions execute_action t w.
Proof.
  intros act execute_action Hact t w.
  unfold execute_intentions_with, execute_intentions, bind, get_self.
  now apply execute_loop_with_on_env.
Qed.

Lemma cycle_with_on_env :
  forall (act : pyval -> pyval -> M Ext pyval)
         (execute_action : pyval -> pyval -> Ext -> Result pyval * Ext),
    (forall a p w, act a p w = on_env (execute_action a p) w) ->
    forall perception t w,
      cycle_with act perception t w = cycle execute_action perception t w.
Proof.
  intros act execute_action Hact perception t w.
  unfold cycle_with, cycle, bind.
  destruct (reason perception w) as [[formed | e] w1]; [ | reflexivity].
  now rewrite (execute_intentions_with_on_env act execute_action Hact).
Qed.

(** With an action that always returns, the walk records for each
    intention, in list order, the line that holds what its action
    returned. *)
Lemma executor_spec_walk :
  forall (execute_action : pyval -> pyval -> Ext -> Result pyval * Ext),
    (forall a p x, exists r x', execute_action a p x = (Ok r, x')) ->
    forall t l results x,
    exists rs x',
      executor_spec execute_action t l results x =
        (Ok (results ++ rs), ([], x')) /\
      walk_lines execute_action t x l rs x'.
Proof.
  intros execute_action Htotal t l.
  induction l as [ | i rest IH]; intros results x; cbn [executor_spec].
  - exists [], x. rewrite app_nil_r. split; [reflexivity | constructor].
  - destruct (expired t i) eqn:Ee.
    + destruct (IH (results ++ [("EXPIRED: " ++ py_str (action i))%string]) x)
        as [rs [x' [H1 H2]]].
      exists (("EXPIRED: " ++ py_str (action i))%string :: rs), x'.
      rewrite H1, <- app_assoc. split; [reflexivity | ].
      now constructor.
    + destruct (Htotal (action i) (parameters i) x) as [r [x1 Ha]].
      rewrite Ha.
      destruct (IH (results ++ [("EXECUTED: " ++ py_str (action i) ++
                                 " -> " ++ py_str r)%string]) x1)
        as [rs [x' [H1 H2]]].
      exists (("EXECUTED: " ++ py_str (action i) ++ " -> " ++ py_str r)%string
              :: rs), x'.
      rewrite H1, <- app_assoc. split; [reflexivity | ].
      eapply walk_executed; eassumption.
Qed.

(** A walk that an exception ends leaves at the head of the list the
    intention whose action raised it. *)
Lemma executor_spec_left :
  forall (execute_action : pyval -> pyval -> Ext -> Result pyval * Ext)
         t l results x e l' x',
    executor_spec execute_action t l results x = (Raise e, (l', x')) ->
    exists i rest x0,
      l' = i :: rest /\ expired t i = false /\
      execute_action (action i) (parameters i) x0 = (Raise e, x').
Proof.
  intros execute_action t l.
  induction l as [ | i rest IH]; intros results x e l' x' H;
    cbn [executor_spec] in H.
  - discriminate.
  - destruct (expired t i) eqn:Ee; [eapply IH; eassumption | ].
    destruct (execute_action (action i) (parameters i) x)
      as [[r | e0] x1] eqn:Ea.
    + eapply IH; eassumption.
    + inversion H; subst. exists i, rest, x. auto.
Qed.

(** X8.  With an action that leaves the agent alone (it works on its own
    state only) and never raises, [execute_intentions] returns one result
    line for each intention, in the order of the list: the expiry notice
    for an expired intention, and for any other the line with the value
    its action returned, the actions being run one after the other.  The
    list is empty afterwards and nothing else of the agent has changed. *)
Theorem execute_intentions_in_order :
  forall (act : pyval -> pyval -> M Ext pyval)
         (execute_action : pyval -> pyval -> Ext -> Result pyval * Ext)
         (t : float) (w : World Ext),
    (forall a p w0, act a p w0 = on_env (execute_action a p) w0) ->
    (forall a p x, exists r x', execute_action a p x = (Ok r, x')) ->
    exists rs x',
      execute_intentions_with act t w = (Ok rs, world_after w [] x') /\
      walk_lines execute_action t (env w) (intentions (self w)) rs x'.
Proof.
  intros act execute_action t w Hact Htotal.
  rewrite (execute_intentions_with_on_env act execute_action Hact).
  rewrite execute_intentions_spec.
  destruct (executor_spec_walk execute_action Htotal t
              (intentions (self w)) [] (env w)) as [rs [x' [H1 H2]]].
  exists rs, x'. rewrite H1. split; [reflexivity | exact H2].
Qed.

(** X9.  With an action that leaves the agent alone,
    [execute_intentions] only takes intentions off the front of the list.
    Whether it returns or raises, the intention list afterwards is an end
    of the list it was, and the executor itself has changed nothing else
    of the agent and printed nothing.  When it returns, nothing is left
    and there is one result for each intention; when it raises, the
    intention whose action raised is at the head of what is left, and it is
    not an expired one. *)
Theorem execute_intentions_only_consumes :
  forall (act : pyval -> pyval -> M Ext pyval)
         (execute_action : pyval -> pyval -> Ext -> Result pyval * Ext)
         (t : float) (w : World Ext),
    (forall a p w0, act a p w0 = on_env (execute_action a p) w0) ->
    exists consumed left x',
      snd (execute_intentions_with act t w) = world_after w left x' /\
      intentions (self w) = consumed ++ left /\
      (forall rs,
         fst (execute_intentions_with act t w) = Ok rs ->
         left = [] /\ List.length rs = List.length (intentions (self w))) /\
      (forall e,
         fst (execute_intentions_with act t w) = Raise e ->
         exists i rest x0,
           left = i :: rest /\ expired t i = false /\
           execute_action (action i) (parameters i) x0 = (Raise e, x')).
Proof.
  intros act execute_action t w Hact.
  rewrite (execute_intentions_with_on_env act execute_action Hact).
  rewrite execute_intentions_spec.
  destruct (executor_spec execute_action t (intentions (self w)) [] (env w))
    as [r [l' x']] eqn:Es.
  destruct (executor_spec_suffix _ _ _ _ _ _ _ _ Es) as [c Hc].
  exists c, l', x'. cbn [fst snd].
  split; [reflexivity | ]. split; [exact Hc | ]. split.
  - intros rs Hr. subst r. apply executor_spec_ok in Es. exact Es.
  - intros e Hr. subst r. eapply executor_spec_left. eassumption.
Qed.

(** No float is strictly before itself, and neither [nan] nor [inf] is
    strictly before any float. *)
Lemma ltb_never : forall t,
  PrimFloat.ltb t t = false /\
  PrimFloat.ltb nan t = false /\
  PrimFloat.ltb infinity t = false.
Proof.
  intros t. rewrite !FloatAxioms.ltb_spec.
  change (Prim2SF nan) with S754_nan.
  change (Prim2SF infinity) with (S754_infinity false).
  unfold SFltb, SFcompare. repeat split.
  - destruct (Prim2SF t) as [s | [ | ] | | [ | ] m e]; try reflexivity.
    + rewrite Z.compare_refl.
      change (Pos.compare_cont Eq m m) with (Pos.compare m m).
      now rewrite Pos.compare_refl.
    + rewrite Z.compare_refl.
      change (Pos.compare_cont Eq m m) with (Pos.compare m m).
      now rewrite Pos.compare_refl.
  - destruct (Prim2SF t) as [s | [ | ] | | [ | ] m e]; reflexivity.
Qed.

(** X10.  The expiry test is strict.  An intention whose float deadline is
    not strictly before the current time is executed, wherever it stands
    in the list; this is so for a deadline equal to the current time, for
    [nan] and for [inf]. *)
Theorem deadline_not_passed_is_executed :
  forall (execute_action : pyval -> pyval -> Ext -> Result pyval * Ext)
         (t d : float) (w w1 : World Ext) (pre post : list Intention)
         (i : Intention) (rs : list string) (r : pyval) (x' : Ext),
    intentions (self w) = pre ++ i :: post ->
    execute_loop execute_action t pre [] w = (Ok rs, w1) ->
    deadline i = PFloat d ->
    d = t \/ d = nan \/ d = infinity ->
    execute_action (action i) (parameters i) (env w1) = (Ok r, x') ->
    execute_intentions execute_action t w =
      execute_loop execute_action t post
        (rs ++ [("EXECUTED: " ++ py_str (action i) ++
                 " -> " ++ py_str r)%string])
        (world_after w1 post x').
Proof.
  intros execute_action t d w w1 pre post i rs r x' Hl Hpre Hd Hcase Hact.
  destruct (execute_intentions_at execute_action t w w1 pre (i :: post) rs
              Hl Hpre) as [Hrun Hw1].
  rewrite Hrun, Hw1. rewrite step_not_expired.
  - rewrite Hw1 in Hact. cbn [env world_after] in *. now rewrite Hact.
  - unfold expired, deadline_passed. rewrite Hd.
    cbn [coerce_deadline float_gt].
    destruct (ltb_never t) as [H1 [H2 H3]].
    destruct Hcase as [-> | [-> | ->]];
      rewrite ?H1, ?H2, ?H3; apply andb_false_r.
Qed.
End ExecutorProperties.

(** ** The cycle *)

Section CycleProperties.
Context {Ext : Type} {RT : Runtime}.

(** [reason] always returns: the list it has stored, or a new empty
    list. *)
Lemma reason_returns : forall perception (w : World Ext),
  exists r,
    fst (reason perception w) = Ok r /\
    (r = StoredIntentions \/ r = NewList []).
Proof.
  intros perception w. rewrite reason_unfold.
  destruct (reason_try (_build_reasoning_prompt (self w) perception) w)
    as [[r | e] w1] eqn:Et.
  - exists r. split; [reflexivity | left].
    revert Et. unfold reason_try, bind, lift.
    repeat match goal with
           | |- context [match ?c with _ => _ end] =>
               destruct c; try discriminate
           end.
    unfold ret. now inversion 1.
  - exists (NewList []). split; [reflexivity | now right].
Qed.

(** X11.  Whenever [cycle] returns, with an action that leaves the agent
    alone: the intention list is empty; the count of intentions formed in
    the summary is 0, because the list [reason] returned is the list the
    executor has emptied, or a new empty list; the summary has one result
    for each intention [reason] left in the list; the count of active
    desires is the number of desires the agent had before the cycle, and
    the belief identifiers are those the agent holds. *)
Theorem cycle_summary :
  forall (act : pyval -> pyval -> M Ext pyval)
         (execute_action : pyval -> pyval -> Ext -> Result pyval * Ext)
         (perception : string) (t : float) (w w' : World Ext)
         (res : CycleResult),
    (forall a p w0, act a p w0 = on_env (execute_action a p) w0) ->
    cycle_with act perception t w = (Ok res, w') ->
    intentions (self w') = [] /\
    intentions_formed res = 0 /\
    active_desires res = List.length (desires (self w)) /\
    current_beliefs res = dict_keys (beliefs (self w')) /\
    List.length (actions_executed res) =
      List.length (intentions (self (snd (reason perception w)))).
Proof.
  intros act execute_action perception t w w' res Hact H.
  rewrite (cycle_with_on_env act execute_action Hact) in H.
  pose proof (reason_preserves same_desires print_same_desires
                set_intentions_same_desires add_belief_same_desires
                perception w) as Hd.
  destruct (reason_returns perception w) as [formed [Hr Hform]].
  revert H. unfold cycle, bind.
  destruct (reason perception w) as [r0 w1]. cbn [fst snd] in *. subst r0.
  rewrite execute_intentions_spec.
  destruct (executor_spec execute_action t (intentions (self w1)) []
              (env w1)) as [[rs | e] [l' x']] eqn:Es; [ | discriminate].
  apply executor_spec_ok in Es. destruct Es as [-> Hlen].
  unfold get_self, ret. inversion 1; subst. cbn.
  repeat split.
  - destruct Hform as [-> | ->]; reflexivity.
  - now rewrite Hd.
  - exact Hlen.
Qed.

(** X13.  A cycle whose reasoning fails still acts.  When the call of the
    service fails or the reply does not parse, [cycle] with the default
    action executes the intentions that were standing before it: its
    summary has one result line for each of them, in order, and the
    beliefs are what they were. *)
Theorem cycle_failed_reasoning_executes_standing :
  forall (perception : string) (t : float) (w : World Ext),
    let prompt := _build_reasoning_prompt (self w) perception in
    (exists e, llm prompt = Raise e) \/
    (exists content e, llm prompt = Ok content /\ loads content = Raise e) ->
    exists res w',
      cycle execute_action_default perception t w = (Ok res, w') /\
      Forall2 (result_line t) (intentions (self w)) (actions_executed res) /\
      beliefs (self w') = beliefs (self w).
Proof.
  intros perception t w prompt H.
  destruct (reason_try_no_reply prompt w H) as [e He].
  unfold cycle, bind. rewrite reason_unfold. fold prompt. rewrite He.
  match goal with
  | |- context [execute_intentions _ t ?w1] =>
      destruct (execute_intentions_default_lines t w1) as [rs [x' [H1 H2]]]
  end.
  rewrite H1. unfold get_self, ret.
  eexists. eexists. split; [reflexivity | ]. split; [exact H2 | reflexivity].
Qed.
End CycleProperties.

(** ** The interactive shell *)

Section ShellFacts.

Lemma split_ws_length : forall n s, List.length (split_ws n s) <= S n.
Proof.
  induction n as [ | n IH]; intros s; cbn [split_ws].
  - destruct (lstrip s); cbn; lia.
  - destruct (lstrip s) as [ | c r]; [cbn; lia | ].
    destruct (take_word (String c r)) as [w rest].
    cbn [List.length]. specialize (IH rest). lia.
Qed.

Lemma take_word_one_word : forall s w rest,
  take_word s = (w, rest) -> one_word w = true.
Proof.
  induction s as [ | c r IH]; intros w rest H; cbn [take_word] in H.
  - now inversion H.
  - destruct (is_space c) eqn:Ec; [now inversion H | ].
    destruct (take_word r) as [w' rest'] eqn:Er.
    inversion H; subst. cbn [one_word]. rewrite Ec. cbn. eapply IH.
    reflexivity.
Qed.

(** The parts [split] cuts off before it reaches its limit are single
    words; only a part at index [maxsplit] can hold white space. *)
Lemma split_ws_words : forall n s i p,
  i < n -> nth_error (split_ws n s) i = Some p -> one_word p = true.
Proof.
  induction n as [ | n IH]; intros s i p Hi Hp; [lia | ].
  cbn [split_ws] in Hp.
  destruct (lstrip s) as [ | c r]; [now destruct i | ].
  destruct (take_word (String c r)) as [w rest] eqn:Ew.
  destruct i as [ | i]; cbn [nth_error] in Hp.
  - inversion Hp; subst. eapply take_word_one_word. eassumption.
  - eapply IH; [ | eassumption]. lia.
Qed.

Lemma prefix_head : forall c p s,
  String.prefix (String c p) s = true ->
  exists r, s = String c r /\ String.prefix p r = true.
Proof.
  intros c p [ | b r] H; cbn [String.prefix] in H; [discriminate | ].
  destruct (ascii_dec c b) as [-> | ]; [eauto | discriminate].
Qed.
End ShellFacts.

Section ShellProperties.
Context {Ext : Type} {RT : Runtime} {SRT : ShellRuntime}.
Variable execute_action : pyval -> pyval -> Ext -> Result pyval * Ext.

(** A line that starts with [add belief] reaches the branch of that
    command. *)
Lemma session_body_add_belief : forall line t,
  String.prefix "add belief" (lower (strip line)) = true ->
  session_body execute_action line t =
  (add_belief_command (strip line) ;; ret true).
Proof.
  intros line t H. unfold session_body. rewrite H.
  apply prefix_head in H. destruct H as [r [-> _]]. reflexivity.
Qed.

(** A line that starts with [add desire] reaches the branch of that
    command. *)
Lemma session_body_add_desire : forall line t,
  String.prefix "add desire" (lower (strip line)) = true ->
  session_body execute_action line t =
  (add_desire_command (strip line) ;; ret true).
Proof.
  intros line t H. unfold session_body. rewrite H.
  apply prefix_head in H. destruct H as [r1 [-> H]].
  apply prefix_head in H. destruct H as [r2 [-> H]].
  apply prefix_head in H. destruct H as [r3 [-> H]].
  apply prefix_head in H. destruct H as [r4 [-> H]].
  apply prefix_head in H. destruct H as [r5 [-> H]].
  reflexivity.
Qed.

(** X15.  The command [add belief <key> <value> [confidence]] never reads
    a confidence.  For every line of ASCII characters that starts with
    [add belief], in any letter case: when the line has four parts or
    more, the belief is
    stored under the third word with confidence 1.0, and its value is all
    that follows the third word, a confidence typed after the value
    included; when it has fewer, the format is printed and the agent is
    unchanged.  The loop goes on either way. *)
Theorem add_belief_command_confidence :
  forall (line : string) (t : float) (w : World Ext),
    is_ascii line = true ->
    String.prefix "add belief" (lower (strip line)) = true ->
    exists w',
      session_step execute_action (Line line) t w = (Ok true, w') /\
      ((exists p0 p1 k v,
          split_ws 3 (strip line) = [p0; p1; k; v] /\
          one_word k = true /\
          w' = mkWorld
                 (mkAgent (name (self w)) (system_prompt (self w))
                    (dict_setitem (beliefs (self w)) (PStr k)
                       (mkBelief (PStr k) (PStr v) (PFloat 1)))
                    (desires (self w)) (intentions (self w)))
                 (stdout w ++
                  [("✅ Added belief: " ++ k ++ " = " ++ v ++
                    " (confidence: " ++ py_str (PFloat 1) ++ ")")%string])
                 (env w)) \/
       (List.length (split_ws 3 (strip line)) < 4 /\
        w' = mkWorld (self w)
               (stdout w ++
                ["❌ Format: add belief <key> <value> [confidence]"%string])
               (env w))).
Proof.
  intros line t w _ H. unfold session_step, try_except.
  rewrite (session_body_add_belief line t H).
  unfold add_belief_command, bind.
  pose proof (split_ws_length 3 (strip line)) as Hlen.
  pose proof (split_ws_words 3 (strip line) 2) as Hword.
  destruct (split_ws 3 (strip line)) as [ | p0 [ | p1 [ | k [ | v more]]]];
    try (eexists; split; [reflexivity | right; split; [cbn; lia | ]];
         reflexivity).
  destruct more; [ | cbn in Hlen; lia].
  eexists. split; [reflexivity | left].
  exists p0, p1, k, v. split; [reflexivity | ].
  split; [apply (Hword k); [lia | reflexivity] | reflexivity].
Qed.

(** X16.  The command [add desire <goal> [priority]] takes one word as the
    goal.  For every line of ASCII characters that starts with
    [add desire]: when the line
    has three parts or more, the desire appended has the third word as its
    goal and an empty context; its priority is the integer that all the
    rest of the line reads as, and 1 when there is no rest or the rest is
    not an integer, as when the goal was meant to be several words.  With
    fewer parts the format is printed and the agent is unchanged. *)
Theorem add_desire_command_one_word_goal :
  forall (line : string) (t : float) (w : World Ext),
    is_ascii line = true ->
    String.prefix "add desire" (lower (strip line)) = true ->
    exists w',
      session_step execute_action (Line line) t w = (Ok true, w') /\
      ((exists p0 p1 g more,
          split_ws 3 (strip line) = p0 :: p1 :: g :: more /\
          one_word g = true /\
          desires (self w') =
            desires (self w) ++
            [mkDesire (PStr g)
               (match more with
                | [] => PInt 1
                | rest :: _ =>
                    match int_of_str rest with
                    | Some z => PInt z
                    | None => PInt 1
                    end
                end)
               (PDict [])] /\
          beliefs (self w') = beliefs (self w) /\
          intentions (self w') = intentions (self w)) \/
       (List.length (split_ws 3 (strip line)) < 3 /\
        w' = mkWorld (self w)
               (stdout w ++
                ["❌ Format: add desire <goal> [priority]"%string])
               (env w))).
Proof.
  intros line t w _ H. unfold session_step, try_except.
  rewrite (session_body_add_desire line t H).
  unfold add_desire_command, bind.
  pose proof (split_ws_words 3 (strip line) 2) as Hword.
  destruct (split_ws 3 (strip line)) as [ | p0 [ | p1 [ | g more]]];
    try (eexists; split; [reflexivity | right; split; [cbn; lia | ]];
         reflexivity).
  eexists. split; [reflexivity | left].
  exists p0, p1, g, more. split; [reflexivity | ].
  split; [apply (Hword g); [lia | reflexivity] | ].
  destruct more; repeat split.
Qed.

(** What follows the branches that go on is the value [true]. *)
Lemma step_goes_on : forall (m : M Ext unit) (w : World Ext),
  exists w',
    try_except (m ;; ret true) (session_except (Ext:=Ext)) w = (Ok true, w').
Proof.
  intros m w. unfold try_except, session_except, bind, print, ret.
  destruct (m w) as [[u | e] w1]; eauto.
Qed.

(** A turn of the loop returns, and it ends the loop at the events of
    [ends_session] only. *)
Lemma session_step_outcome :
  forall (event : input_event) (t : float) (w : World Ext),
    exists w',
      session_step execute_action event t w =
      (Ok (negb (ends_session event)), w').
Proof.
  intros [line | e | ] t w; unfold session_step; cbn [ends_session].
  - unfold session_body.
    destruct (String.eqb (lower (strip line)) "quit" ||
              String.eqb (lower (strip line)) "exit").
    { eexists. reflexivity. }
    cbn [negb].
    destruct (String.eqb (lower (strip line)) "show state");
      [apply step_goes_on | ].
    destruct (String.prefix "add belief" (lower (strip line)));
      [apply step_goes_on | ].
    destruct (String.prefix "add desire" (lower (strip line)));
      [apply step_goes_on | ].
    destruct (String.eqb (strip line) EmptyString); [ | apply step_goes_on].
    eexists. reflexivity.
  - eexists. reflexivity.
  - eexists. reflexivity.
Qed.

(** X17.  A turn of the loop never raises, whatever [input] does in it.
    When [input] returns a line of ASCII characters, the turn ends the
    loop if and only if the line, stripped and in lower case, is [quit] or
    [exit]; an exception that leaves [cycle] does not end it.  When
    [input] raises an error, the error and [Please try again.] are printed,
    the agent is untouched and the loop goes on.  When the user interrupts
    [input] from the keyboard, the notice [Session interrupted] is
    printed, the agent is untouched and the loop ends. *)
Theorem session_step_never_raises :
  forall (event : input_event) (t : float) (w : World Ext),
    ascii_event event = true ->
    exists go_on w',
      session_step execute_action event t w = (Ok go_on, w') /\
      (go_on = false <->
       event = Interrupt \/
       exists line, event = Line line /\
                    (lower (strip line) = "quit"%string \/
                     lower (strip line) = "exit"%string)) /\
      (event = Interrupt ->
       w' = mkWorld (self w)
              (stdout w ++
               [(nl ++ nl ++ "👋 Session interrupted. Goodbye!")%string])
              (env w)) /\
      (forall e, event = InputError e ->
       w' = mkWorld (self w)
              (stdout w ++
               [("❌ Error: " ++ exn_str e)%string;
                "Please try again."%string])
              (env w)).
Proof.
  intros event t w _.
  destruct (session_step_outcome event t w) as [w' H].
  exists (negb (ends_session event)), w'. split; [exact H | ].
  split; [ | split].
  - destruct event as [line | e | ]; cbn [ends_session].
    + destruct (String.eqb (lower (strip line)) "quit") eqn:Eq.
      { apply String.eqb_eq in Eq. cbn. split; [ | reflexivity].
        intros _. right. exists line. auto. }
      destruct (String.eqb (lower (strip line)) "exit") eqn:Ee.
      { apply String.eqb_eq in Ee. cbn. split; [ | reflexivity].
        intros _. right. exists line. auto. }
      apply String.eqb_neq in Eq. apply String.eqb_neq in Ee.
      cbn. split; [discriminate | ].
      intros [Hi | [l0 [Hl0 [Hq | He]]]]; [discriminate | | ];
        inversion Hl0; subst l0; contradiction.
    + cbn. split; [discriminate | ].
      intros [Hi | [l0 [Hl0 _]]]; discriminate.
    + cbn. split; [auto | reflexivity].
  - intros ->. revert H. unfold session_step, session_interrupted, bind,
      print, ret. inversion 1; subst. reflexivity.
  - intros e ->. revert H. unfold session_step, try_except, raise,
      session_except, bind, print, ret. inversion 1; subst.
    cbn [self stdout env]. now rewrite <- app_assoc.
Qed.
End ShellProperties.

Section SessionProperties.
Context {Ext : Type} {RT : Runtime} {SRT : ShellRuntime}.
Variable execute_action : pyval -> pyval -> Ext -> Result pyval * Ext.

(** X18.  The session never raises, and for lines of ASCII characters it
    ends at the first event that is an interrupt of [input] or a line that
    reads [quit] or [exit], stripped and in lower case: the turns after it
    are not run, and every turn before it is. *)
Theorem session_loop_ends_at_quit :
  forall (events : list (input_event * float)) (w : World Ext),
    forallb (fun et => ascii_event (fst et)) events = true ->
    (exists w', session_loop execute_action events w = (Ok tt, w')) /\
    (forall pre post event t,
       events = pre ++ (event, t) :: post ->
       ends_session event = true ->
       session_loop execute_action events w =
       session_loop execute_action (pre ++ [(event, t)]) w) /\
    (forall pre post,
       events = pre ++ post ->
       forallb (fun et => negb (ends_session (fst et))) pre = true ->
       session_loop execute_action events w =
       session_loop execute_action post
         (snd (session_loop execute_action pre w))).
Proof.
  intros events w _. split; [ | split].
  - revert w. induction events as [ | [event t] rest IH]; intros w.
    + cbn [session_loop]. unfold ret. eauto.
    + cbn [session_loop]. unfold bind.
      destruct (session_step_outcome execute_action event t w) as [w1 H1].
      rewrite H1.
      destruct (negb (ends_session event)); [apply IH | unfold ret; eauto].
  - intros pre post event t -> Hend. revert w.
    induction pre as [ | [event0 t0] rest IH]; intros w.
    + cbn [app session_loop]. unfold bind.
      destruct (session_step_outcome execute_action event t w) as [w1 H1].
      rewrite H1, Hend. reflexivity.
    + cbn [app session_loop]. unfold bind.
      destruct (session_step execute_action event0 t0 w) as [[[ | ] | e] w1];
        [apply IH | reflexivity | reflexivity].
  - intros pre post -> Hpre. revert w.
    induction pre as [ | [event0 t0] rest IH]; intros w.
    + reflexivity.
    + cbn [forallb fst] in Hpre. apply andb_prop in Hpre.
      destruct Hpre as [H0 Hrest].
      cbn [app session_loop]. unfold bind.
      destruct (session_step_outcome execute_action event0 t0 w) as [w1 H1].
      rewrite H1, H0. now apply IH.
Qed.
End SessionProperties.

(** ** The further properties on concrete inputs *)

Lemma reason_well_formed_reply_witness :
  reason (RT:=example_rt) "hello" standing_world =
  (Ok StoredIntentions,
   mkWorld
     (mkAgent "TaskBot" "You are a helpful task management agent."
        [(PStr "energy_level",
          mkBelief (PStr "energy_level") (PStr "high") (PFloat 0.5));
         (PStr "mood",
          mkBelief (PStr "mood") (PStr "calm") (PFloat float_0_6))]
        [mkDesire (PStr "take_break") (PInt 2) (PDict [])]
        [mkIntention (PStr "rest") (PDict []) PNone])
     ["[TaskBot] Reasoning: ok"] 0).
Proof.
  exact (proj1 (reason_well_formed_reply (RT:=example_rt)
                  "hello" example_reply_text
                  [(PStr "belief_updates",
                    PList [PDict [(PStr "key", PStr "mood");
                                  (PStr "value", PStr "calm");
                                  (PStr "confidence", PFloat float_0_6)]]);
                   (PStr "new_intentions",
                    PList [PDict [(PStr "action", PStr "rest")]]);
                   (PStr "reasoning", PStr "ok")]
                  [PDict [(PStr "key", PStr "mood");
                          (PStr "value", PStr "calm");
                          (PStr "confidence", PFloat float_0_6)]]
                  [PDict [(PStr "action", PStr "rest")]]
                  [mkIntention (PStr "rest") (PDict []) PNone]
                  standing_world
                  eq_refl eq_refl eq_refl eq_refl eq_refl eq_refl)).
Defined.

Lemma reason_non_object_reply_witness :
  reason (RT:=list_rt) "hello" standing_world =
  (Ok (NewList []),
   mkWorld (self standing_world)
     ["[TaskBot] Error in reasoning: 'list' object has no attribute 'get'"]
     0).
Proof.
  refine (reason_non_object_reply (RT:=list_rt) "hello" "[]" (PList [])
            standing_world eq_refl eq_refl _).
  discriminate.
Defined.

Lemma reason_malformed_intention_keeps_updates_witness :
  fst (reason (RT:=no_action_rt) "hello" standing_world) = Ok (NewList []) /\
  dict_lookup
    (beliefs (self (snd (reason (RT:=no_action_rt) "hello" standing_world))))
    (PStr "mood") =
    Some (mkBelief (PStr "mood") (PStr "calm") (PFloat 1)) /\
  intentions (self (snd (reason (RT:=no_action_rt) "hello" standing_world))) =
    [greet].
Proof.
  destruct (reason_malformed_intention_keeps_updates (RT:=no_action_rt)
              "hello" no_action_text no_action_reply
              [PDict [(PStr "key", PStr "mood"); (PStr "value", PStr "calm")]]
              [PDict [(PStr "action", PStr "rest")]] []
              (PDict [(PStr "parameters", PDict [])])
              [mkIntention (PStr "rest") (PDict []) PNone]
              standing_world
              eq_refl eq_refl eq_refl eq_refl eq_refl eq_refl eq_refl)
    as [H1 [H2 [H3 _]]].
  split; [exact H1 | split; [ | exact H3]].
  rewrite H2. reflexivity.
Defined.

Lemma reason_stops_at_any_malformed_update_witness :
  fst (reason (RT:=partial_rt) "hello" standing_world) = Ok (NewList []) /\
  beliefs (self (snd (reason (RT:=partial_rt) "hello" standing_world))) =
    [(PStr "energy_level",
      mkBelief (PStr "energy_level") (PStr "high") (PFloat 0.5));
     (PStr "mood", mkBelief (PStr "mood") (PStr "calm") (PFloat 1))].
Proof.
  destruct (reason_stops_at_any_malformed_update (RT:=partial_rt)
              "hello" partial_reply_text partial_reply_updates
              [PDict [(PStr "key", PStr "mood"); (PStr "value", PStr "calm")]]
              [] (PDict [(PStr "key", PStr "time")])
              standing_world
              eq_refl eq_refl eq_refl eq_refl eq_refl) as [H1 [H2 _]].
  exact (conj H1 H2).
Defined.

Lemma reason_belief_updates_not_a_list_witness :
  fst (reason (RT:=null_updates_rt) "hello" standing_world) =
    Ok (NewList []) /\
  self (snd (reason (RT:=null_updates_rt) "hello" standing_world)) =
    self standing_world.
Proof.
  exact (reason_belief_updates_not_a_list (RT:=null_updates_rt)
           "hello" null_updates_text null_updates_reply PNone standing_world
           eq_refl eq_refl eq_refl eq_refl).
Defined.

Lemma update_beliefs_last_entry_wins_witness :
  dict_lookup
    (beliefs
       (self
          (snd (_update_beliefs
                  (PList [PDict [(PStr "key", PStr "mood");
                                 (PStr "value", PStr "calm")];
                          PDict [(PStr "key", PStr "mood");
                                 (PStr "value", PStr "tense");
                                 (PStr "confidence", PNone)]])
                  standing_world))))
    (PStr "mood") =
  Some (mkBelief (PStr "mood") (PStr "tense") PNone).
Proof.
  exact (proj2 (update_beliefs_last_entry_wins
                  [PDict [(PStr "key", PStr "mood");
                          (PStr "value", PStr "calm")];
                   PDict [(PStr "key", PStr "mood");
                          (PStr "value", PStr "tense");
                          (PStr "confidence", PNone)]]
                  [("mood"%string, PStr "calm", PFloat 1);
                   ("mood"%string, PStr "tense", PNone)]
                  standing_world eq_refl) "mood"%string).
Defined.

Lemma execute_intentions_in_order_witness :
  exists rs x',
    execute_intentions_with (RT:=test_rt) count_method 10
      (test_world [greet; remind; backup]) =
      (Ok rs, world_after (test_world [greet; remind; backup]) [] x') /\
    walk_lines (RT:=test_rt) count_action 10 0
      [greet; remind; backup] rs x'.
Proof.
  apply (execute_intentions_in_order (RT:=test_rt) count_method count_action
           10 (test_world [greet; remind; backup])).
  - intros a p w0. reflexivity.
  - intros a p x. exists (PStr "done"), (S x). reflexivity.
Defined.

Lemma execute_intentions_only_consumes_witness :
  exists consumed left x',
    snd (execute_intentions_with (RT:=test_rt)
           (fun a p => on_env (test_action a p)) 10
           (test_world [remind; greet; explode; backup])) =
      world_after (test_world [remind; greet; explode; backup]) left x' /\
    [remind; greet; explode; backup] = consumed ++ left /\
    exists i rest x0,
      left = i :: rest /\ expired (RT:=test_rt) 10 i = false /\
      test_action (action i) (parameters i) x0 =
        (Raise (OtherException "RuntimeError"), x').
Proof.
  destruct (execute_intentions_only_consumes (RT:=test_rt)
              (fun a p => on_env (test_action a p)) test_action 10
              (test_world [remind; greet; explode; backup])
              (fun a p w0 => eq_refl))
    as [consumed [left [x' [H1 [H2 [_ H3]]]]]].
  exists consumed, left, x'.
  split; [exact H1 | ]. split; [exact H2 | ].
  apply H3. reflexivity.
Defined.

Lemma deadline_not_passed_is_executed_witness :
  execute_intentions (RT:=test_rt) count_action 10 (test_world [due_at_ten]) =
  (Ok ["EXECUTED: report -> done"], mkWorld (test_agent []) [] 1).
Proof.
  exact (deadline_not_passed_is_executed (RT:=test_rt) count_action 10 10
           (test_world [due_at_ten]) (test_world [due_at_ten])
           [] [] due_at_ten [] (PStr "done") 1
           eq_refl eq_refl eq_refl (or_introl eq_refl) eq_refl).
Defined.

Lemma cycle_summary_witness :
  intentions
    (self (snd (cycle_with (RT:=test_rt) count_method "hello" 10
                  standing_world))) = [] /\
  fst (cycle_with (RT:=test_rt) count_method "hello" 10 standing_world) =
    Ok {| intentions_formed := 0;
          actions_executed := ["EXECUTED: rest -> done"];
          current_beliefs := [PStr "energy_level"; PStr "mood"];
          active_desires := 1 |}.
Proof.
  split; [ | reflexivity].
  exact (proj1 (cycle_summary (RT:=test_rt) count_method count_action
                  "hello" 10 standing_world
                  (snd (cycle_with (RT:=test_rt) count_method "hello" 10
                          standing_world))
                  {| intentions_formed := 0;
                     actions_executed := ["EXECUTED: rest -> done"];
                     current_beliefs := [PStr "energy_level"; PStr "mood"];
                     active_desires := 1 |}
                  (fun a p w0 => eq_refl) eq_refl)).
Defined.

Lemma cycle_failed_reasoning_executes_standing_witness :
  exists res w',
    cycle (RT:=prose_rt) (execute_action_default (RT:=prose_rt)) "hello" 10
      standing_world = (Ok res, w') /\
    Forall2 (result_line (RT:=prose_rt) 10) [greet] (actions_executed res) /\
    beliefs (self w') = beliefs (self standing_world).
Proof.
  apply (cycle_failed_reasoning_executes_standing (RT:=prose_rt)
           "hello" 10 standing_world).
  right.
  exists (Some "I would rather take a break now."%string), JSONDecodeError.
  split; reflexivity.
Defined.

Lemma add_belief_command_confidence_witness :
  session_step (RT:=example_rt) (SRT:=test_shell) count_action
    (Line "  Add Belief weather sunny 0.9 ") 10 (test_world []) =
  (Ok true,
   mkWorld
     (mkAgent "TaskBot" "You are a helpful task management agent."
        [(PStr "weather",
          mkBelief (PStr "weather") (PStr "sunny 0.9") (PFloat 1))]
        [] [])
     ["✅ Added belief: weather = sunny 0.9 (confidence: 1.0)"] 0).
Proof.
  destruct (add_belief_command_confidence (RT:=example_rt) (SRT:=test_shell)
              count_action "  Add Belief weather sunny 0.9 " 10
              (test_world []) eq_refl eq_refl)
    as [w' [H [[p0 [p1 [k [v [Hs [_ Hw]]]]]] | [Hlen _]]]].
  - rewrite H, Hw. inversion Hs; subst. reflexivity.
  - vm_compute in Hlen. lia.
Defined.

Lemma add_desire_command_one_word_goal_witness :
  desires
    (self (snd (session_step (RT:=example_rt) (SRT:=test_shell) count_action
                  (Line "add desire finish the report") 10
                  (test_world [])))) =
  [mkDesire (PStr "finish") (PInt 1) (PDict [])].
Proof.
  destruct (add_desire_command_one_word_goal (RT:=example_rt)
              (SRT:=test_shell) count_action
              "add desire finish the report" 10 (test_world [])
              eq_refl eq_refl)
    as [w' [H [[p0 [p1 [g [more [Hs [_ [Hd _]]]]]]] | [Hlen _]]]].
  - rewrite H. cbn [snd]. rewrite Hd. inversion Hs; subst. reflexivity.
  - vm_compute in Hlen. lia.
Defined.

Lemma session_step_never_raises_witness :
  session_step (RT:=example_rt) (SRT:=test_shell) count_action
    Interrupt 10 (test_world [greet]) =
  (Ok false,
   mkWorld (test_agent [greet])
     [(nl ++ nl ++ "👋 Session interrupted. Goodbye!")%string] 0).
Proof.
  destruct (session_step_never_raises (RT:=example_rt) (SRT:=test_shell)
              count_action Interrupt 10 (test_world [greet]) eq_refl)
    as [go_on [w' [H [Hgo [Hw _]]]]].
  rewrite H, (Hw eq_refl).
  rewrite (proj2 Hgo (or_introl eq_refl)). reflexivity.
Defined.

Lemma session_loop_ends_at_quit_witness :
  session_loop (RT:=example_rt) (SRT:=test_shell) count_action
    [(Line "add desire rest 2", 10%float); (Line " QUIT ", 11%float);
     (Line "add desire never", 12%float)]
    (test_world []) =
  (Ok tt,
   mkWorld
     (mkAgent "TaskBot" "You are a helpful task management agent."
        [] [mkDesire (PStr "rest") (PInt 2) (PDict [])] [])
     ["✅ Added desire: rest (priority: 2)"; "👋 Goodbye! Session ended."] 0).
Proof.
  rewrite (proj1 (proj2 (session_loop_ends_at_quit (RT:=example_rt)
                    (SRT:=test_shell) count_action
                    [(Line "add desire rest 2"%string, 10%float);
                     (Line " QUIT "%string, 11%float);
                     (Line "add desire never"%string, 12%float)]
                    (test_world []) eq_refl))
             [(Line "add desire rest 2"%string, 10%float)]
             [(Line "add desire never"%string, 12%float)]
             (Line " QUIT "%string) 11%float eq_refl eq_refl).
  reflexivity.
Defined.
